(** * Streaming and batch ingestion of 5G KPM logs (src/app.py)

    A shallow embedding of the ingestion core of the metrics analyzer:
    the cursor tracker ([read_new_data], [reset_position]), the
    incremental merger and the streaming step
    ([process_incremental_data]), the batch ingestor ([process_file])
    and the two drivers ([real_time_tab], the upload loop of
    [non_real_time_tab]).

    pandas, the file system and the extraction process are outside the
    program; they enter the model as data ([DataFrame], [file_status])
    and as parameters of the section [Core] ([run_perl], [read_csv]). *)

From Stdlib Require Import ZArith List Bool Ascii String DecimalString Lia Sorted.
From stdpp Require Import base list strings gmap sorting.
Import ListNotations.
Local Open Scope string_scope.
Local Open Scope list_scope.
Local Open Scope Z_scope.

(** ** Data model *)

(** One row of a frame.  [id] and [latency] are integer columns; a
    missing value (pandas NaN, also the value a row takes for a column
    its frame did not have before a concat) is [None].  The seven
    measurement columns are kept as (column, raw value) pairs: the core
    never computes with them.  [source_file] is the tag of the batch
    path. *)
Record Row := mkRow {
  id : option Z;
  latency : option Z;
  metrics : list (string * string);
  source_file : option string
}.

(** A pandas DataFrame as the core sees it: column labels and rows in
    index order. *)
Record DataFrame := mkDF {
  columns : list string;
  rows : list Row
}.

(** [pd.DataFrame()] *)
Definition DataFrame_new : DataFrame := mkDF [] [].

(** [df.empty]: some axis has length 0. *)
Definition empty (df : DataFrame) : bool :=
  match columns df, rows df with
  | [], _ => true
  | _, [] => true
  | _, _ => false
  end.

(** ['c' in df.columns] *)
Definition has_column (c : string) (df : DataFrame) : bool :=
  existsb (String.eqb c) (columns df).

(** [Series.max()]: NaN entries are skipped; the result is NaN when
    nothing is left. *)
Fixpoint series_max (s : list (option Z)) : option Z :=
  match s with
  | [] => None
  | None :: s' => series_max s'
  | Some x :: s' =>
      match series_max s' with
      | None => Some x
      | Some m => Some (Z.max x m)
      end
  end.

(** [x > m] on one entry of a Series: every comparison with NaN is
    False. *)
Definition gt_entry (x m : option Z) : bool :=
  match x, m with
  | Some i, Some j => j <? i
  | _, _ => false
  end.

(** [df[df['id'] > max_id]]: [None] is the KeyError raised when the
    frame has no id column. *)
Definition select_id_gt (df : DataFrame) (max_id : option Z) : option DataFrame :=
  if has_column "id" df
  then Some (mkDF (columns df) (List.filter (fun r => gt_entry (id r) max_id) (rows df)))
  else None.

(** [pd.concat([a, b], ignore_index=True)]: rows of [a] then rows of
    [b]; the columns are those of [a] followed by the columns only [b]
    has. *)
Definition concat (a b : DataFrame) : DataFrame :=
  mkDF (columns a ++ List.filter (fun c => negb (has_column c a)) (columns b))
       (rows a ++ rows b).

(** [df['source_file'] = filename] *)
Definition set_source_file (filename : string) (df : DataFrame) : DataFrame :=
  mkDF (if has_column "source_file" df then columns df
        else columns df ++ ["source_file"])
       (map (fun r => mkRow (id r) (latency r) (metrics r) (Some filename)) (rows df)).

(** [Series.dropna()]: the entries that are not NaN, in order. *)
Fixpoint dropna (s : list (option Z)) : list Z :=
  match s with
  | [] => []
  | Some x :: s' => x :: dropna s'
  | None :: s' => dropna s'
  end.

(** The ids a frame holds, in index order (NaN entries left out). *)
Definition row_ids (rs : list Row) : list Z := dropna (map id rs).
Definition ids (df : DataFrame) : list Z := row_ids (rows df).

(** ** Outcomes of the external steps *)

(** A Python call that either returns or raises an [Exception] with
    message [msg]. *)
Inductive raised (A : Type) : Type :=
| Ret (a : A)
| Raise (msg : string).
Arguments Ret {A} a.
Arguments Raise {A} msg.

(** What writing the temporary file and running
    [subprocess.run(['perl', script], stdin=..., capture_output=True,
    text=True, timeout=30)] can do. *)
Inductive outcome : Type :=
| TempFileError (msg : string)
| TimeoutExpired (msg : string)
| RunError (msg : string)
| Completed (returncode : Z) (stdout stderr : string).

(** An output of the program: the returned value and the messages
    passed to [st.error], oldest first. *)
Definition reported (A : Type) : Type := (A * list string)%type.

(** ** The incremental merger (app.py, lines 217-228) *)

(** [max_id = existing_df['id'].max() if 'id' in existing_df.columns else 0] *)
Definition max_id_of (existing_df : DataFrame) : option Z :=
  if has_column "id" existing_df
  then series_max (map id (rows existing_df))
  else Some 0.

Definition merge (existing_df : option DataFrame) (new_df : DataFrame)
  : raised DataFrame :=
  match existing_df with
  | Some e =>
      if negb (empty e) then
        let max_id := max_id_of e in
        match select_id_gt new_df max_id with
        | None => Raise "'id'"
        | Some new_df' =>
            if negb (empty new_df')
            then Ret (concat e new_df')
            else Ret e
        end
      else Ret new_df
  | None => Ret new_df
  end.

(** ** Text helpers *)

Definition is_digit (c : ascii) : bool :=
  ((48 <=? nat_of_ascii c) && (nat_of_ascii c <=? 57))%nat.

(** [str.isspace] on the ASCII range: tab, LF, VT, FF, CR, the four
    separators 0x1c-0x1f and the space. *)
Definition isspace (c : ascii) : bool :=
  let n := nat_of_ascii c in
  (((9 <=? n) && (n <=? 13)) || ((28 <=? n) && (n <=? 32)))%nat.

(** [bool(s.strip())]: the text has a character that is not
    whitespace. *)
Fixpoint strip_nonempty (s : string) : bool :=
  match s with
  | EmptyString => false
  | String c s' => negb (isspace c) || strip_nonempty s'
  end.

(** [bool(s)] for a string. *)
Definition nonempty (s : string) : bool :=
  match s with
  | EmptyString => false
  | String _ _ => true
  end.

Fixpoint lstrip (s : string) : string :=
  match s with
  | String c s' => if isspace c then lstrip s' else s
  | EmptyString => EmptyString
  end.

(** The longest prefix of digits and what follows it. *)
Fixpoint take_digits (s : string) : string * string :=
  match s with
  | String c s' =>
      if is_digit c
      then let '(d, rest) := take_digits s' in (String c d, rest)
      else (EmptyString, s)
  | EmptyString => (EmptyString, EmptyString)
  end.

Fixpoint digits_value (acc : Z) (s : string) : Z :=
  match s with
  | String c s' => digits_value (10 * acc + Z.of_nat (nat_of_ascii c - 48)) s'
  | EmptyString => acc
  end.

(** A decimal integer, or NaN for anything else. *)
Definition parse_int (s : string) : option Z :=
  match take_digits s with
  | (String c d, EmptyString) => Some (digits_value 0 (String c d))
  | _ => None
  end.

(** [s] without its prefix [p]. *)
Fixpoint drop_prefix (p s : string) : option string :=
  match p, s with
  | EmptyString, _ => Some s
  | String a p', String b s' => if Ascii.eqb a b then drop_prefix p' s' else None
  | String _ _, EmptyString => None
  end.

(** Cut [s] at the first occurrence of [sep]. *)
Fixpoint cut (sep s : string) : option (string * string) :=
  match drop_prefix sep s with
  | Some rest => Some (EmptyString, rest)
  | None =>
      match s with
      | String c s' =>
          match cut sep s' with
          | Some (l, r) => Some (String c l, r)
          | None => None
          end
      | EmptyString => None
      end
  end.

Fixpoint split_on (sep : ascii) (s : string) : list string :=
  match s with
  | EmptyString => [EmptyString]
  | String c s' =>
      if Ascii.eqb c sep then EmptyString :: split_on sep s'
      else match split_on sep s' with
           | l :: ls => String c l :: ls
           | [] => [String c EmptyString]
           end
  end.

Definition newline : ascii := ascii_of_nat 10.
Definition nl : string := String newline EmptyString.

(** ** The extraction engine and the CSV reader, from the interface of
    the spec *)

(** Modelled from the spec: one measurement block of the log grammar
    (section 6) as the engine [scripts/script.pl] collects it: the two
    captures of the anchor line and the (field, value) pairs of the
    lines after it. *)
Record block := mkBlock {
  b_id : string;
  b_latency : string;
  b_fields : list (string * string)
}.

(** Modelled from the spec: the anchor line of the log grammar (section
    6), [<id> KPM ind_msg latency = <integer> [<unit>]], leading blanks
    allowed as the log simulator writes them. *)
Definition parse_anchor (line : string) : option (string * string) :=
  let '(i, rest) := take_digits (lstrip line) in
  match drop_prefix " KPM ind_msg latency = " rest with
  | Some rest' =>
      let '(l, rest'') := take_digits rest' in
      match drop_prefix " [" rest'' with
      | Some _ => if nonempty i && nonempty l then Some (i, l) else None
      | None => None
      end
  | None => None
  end.

(** Modelled from the spec: a metric line of the log grammar (section
    6), [<Namespace>.<Field> = <value> [<unit>]]. *)
Definition parse_metric (line : string) : option (string * string) :=
  match cut "." (lstrip line) with
  | Some (_, after) =>
      match cut " = " after with
      | Some (field, rest) =>
          match cut " [" rest with
          | Some (value, _) => Some (field, value)
          | None => None
          end
      | None => None
      end
  | None => None
  end.

(** Modelled from the spec: the seven measurement columns of the
    engine's output (section 6), in order. *)
Definition metric_columns : list string :=
  ["PdcpSduVolumeDL"; "PdcpSduVolumeUL"; "RlcSduDelayDl"; "UEThpDl";
   "UEThpUl"; "PrbTotDl"; "PrbTotUl"].

(** Modelled from the spec: the header row of the engine's output
    (section 6). *)
Definition csv_header : list string := "id" :: "latency" :: metric_columns.

(** Modelled from the spec: the block in progress, if any, is complete
    when the next anchor or the end of the input comes. *)
Definition flush (cur : option block) : list block :=
  match cur with
  | Some b => [b]
  | None => []
  end.

(** Modelled from the spec: the blocks of a text, one per anchor line,
    each with the metric lines that follow it up to the next anchor. *)
Fixpoint scan (lines : list string) (cur : option block) : list block :=
  match lines with
  | [] => flush cur
  | l :: ls =>
      match parse_anchor l with
      | Some (i, lat) => flush cur ++ scan ls (Some (mkBlock i lat []))
      | None =>
          match parse_metric l, cur with
          | Some fv, Some b =>
              scan ls (Some (mkBlock (b_id b) (b_latency b) (b_fields b ++ [fv])))
          | _, _ => scan ls cur
          end
      end
  end.

(** Modelled from the spec: the value a block has for a field, empty
    when the block has no line for it. *)
Fixpoint field_value (f : string) (fs : list (string * string)) : string :=
  match fs with
  | (k, v) :: fs' => if String.eqb k f then v else field_value f fs'
  | [] => EmptyString
  end.

(** Modelled from the spec: one row of the tabular output (section
    4.2), cells separated by commas. *)
Definition csv_line (cells : list string) : string :=
  String.concat "," cells +:+ nl.

(** Modelled from the spec: the output row of a block (section 6): id,
    latency and the seven measurements. *)
Definition csv_row (b : block) : string :=
  csv_line (b_id b :: b_latency b ::
            map (fun f => field_value f (b_fields b)) metric_columns).

(** Modelled from the spec: the extraction engine [scripts/script.pl],
    which is not among the sources.  Sections 4.2 and 6: the text comes
    in on standard input; the output is a header row of the nine field
    names followed by one row per measurement block; the exit status is
    0. *)
Definition spec_run_perl (text : string) : outcome :=
  Completed 0
    (csv_line csv_header +:+
     String.concat "" (map csv_row (scan (split_on newline text) None)))
    "".

(** What [read_csv] can do: a frame, or the exception it raised. *)
Inductive parsed : Type :=
| Parsed (df : DataFrame)
| ParseError (msg : string).

(** Modelled from the spec: one record of the tabular text as a row,
    each cell read under the name of its column; a cell of an integer
    column that is not a decimal integer reads as NaN. *)
Fixpoint row_of_cells (cols cells : list string) (r : Row) : Row :=
  match cols, cells with
  | c :: cols', v :: cells' =>
      row_of_cells cols' cells'
        (if String.eqb c "id" then mkRow (parse_int v) (latency r) (metrics r) (source_file r)
         else if String.eqb c "latency" then mkRow (id r) (parse_int v) (metrics r) (source_file r)
         else if String.eqb c "source_file" then mkRow (id r) (latency r) (metrics r) (Some v)
         else mkRow (id r) (latency r) (metrics r ++ [(c, v)]) (source_file r))
  | _, _ => r
  end.

(** Modelled from the spec: [pandas.read_csv] on the line-structured
    tabular text of section 4.2: blank lines are skipped, the first
    line names the columns, every other line is one record, cells are
    separated by commas; no input at all raises, and so does a record
    with more cells than there are columns. *)
Definition spec_read_csv (text : string) : parsed :=
  match List.filter nonempty (split_on newline text) with
  | [] => ParseError "No columns to parse from file"
  | h :: ls =>
      let cols := split_on "," h in
      let recs := map (split_on ",") ls in
      if forallb (fun cells => (length cells <=? length cols)%nat) recs
      then Parsed (mkDF cols (map (fun cells => row_of_cells cols cells (mkRow None None [] None)) recs))
      else ParseError "Error tokenizing data"
  end.

(** ** The cursor tracker *)

(** What the monitored path holds when it is read. *)
Inductive file_status : Type :=
| Missing
| Unreadable (msg : string)
| Content (data : string).

Record RealTimeMetricsProcessor := mkRT {
  perl_script_path : string;
  last_position : nat;
  monitoring : bool
}.

(** [RealTimeMetricsProcessor()] *)
Definition RealTimeMetricsProcessor_init : RealTimeMetricsProcessor :=
  mkRT "scripts/script.pl" 0 false.

(** [f.seek(pos); f.read()]: the bytes from [pos] to the end of the
    file, nothing when [pos] is at or past the end. *)
Fixpoint read_from (pos : nat) (data : string) : string :=
  match pos, data with
  | O, _ => data
  | S n, String _ data' => read_from n data'
  | S _, EmptyString => EmptyString
  end.

(** [f.tell()] after that read. *)
Definition tell_after_read (pos : nat) (data : string) : nat :=
  Nat.max pos (String.length data).

Definition read_new_data (self : RealTimeMetricsProcessor) (file : file_status)
  (file_path : string)
  : RealTimeMetricsProcessor * reported (option string) :=
  match file with
  | Missing => (self, (None, []))
  | Unreadable msg =>
      (self, (None, ["Error reading file " +:+ file_path +:+ ": " +:+ msg]))
  | Content data =>
      let new_content := read_from (last_position self) data in
      let self' := mkRT (perl_script_path self)
                        (tell_after_read (last_position self) data)
                        (monitoring self) in
      (self', (if strip_nonempty new_content then Some new_content else None, []))
  end.

Definition reset_position (self : RealTimeMetricsProcessor) : RealTimeMetricsProcessor :=
  mkRT (perl_script_path self) 0 (monitoring self).

(** ** The session of the streaming tab *)

(** [st.session_state] of the streaming tab. *)
Record session_state := mkSession {
  rt_data : DataFrame;
  rt_last_update : option Z;
  rt_monitoring : bool
}.

(** The state a new session gets from the three [if ... not in
    st.session_state] initialisers. *)
Definition session_init : session_state := mkSession DataFrame_new None false.

(** What one run of the streaming tab reads from its widgets, from the
    monitored path and from the clock. *)
Record tab_inputs := mkInputs {
  log_file_path : string;
  monitoring_enabled : bool;
  reset_clicked : bool;
  log_file : file_status;
  now : Z
}.

(** ** Trackers over time *)

(** What happens to one cursor tracker: a read of the monitored file as
    it is at that moment, or a reset. *)
Inductive tracker_op : Type :=
| OpRead (file : file_status)
| OpReset.

Definition tracker_step (self : RealTimeMetricsProcessor) (op : tracker_op)
  : RealTimeMetricsProcessor :=
  match op with
  | OpRead file => fst (read_new_data self file "log")
  | OpReset => reset_position self
  end.

Definition is_read (op : tracker_op) : bool :=
  match op with
  | OpRead _ => true
  | OpReset => false
  end.

(** The successive contents of a file that is only appended to, after
    the content [prev]: each has the one before it as a prefix. *)
Fixpoint append_only (prev : string) (snapshots : list string) : Prop :=
  match snapshots with
  | [] => True
  | s :: rest => String.prefix prev s = true /\ append_only s rest
  end.

(** One tracker reading the successive contents of its file. *)
Definition read_all (self : RealTimeMetricsProcessor) (snapshots : list string)
  : RealTimeMetricsProcessor :=
  fold_left tracker_step (map (fun s => OpRead (Content s)) snapshots) self.

(** ** Notions of the statements *)

(** [x] occurs in [s] ("naming" a source in a message). *)
Definition mentions (s x : string) : Prop :=
  exists pre post, s = pre +:+ x +:+ post.

(** Two frames hold the same set of ids. *)
Definition same_id_set (a b : DataFrame) : Prop :=
  forall i, In i (ids a) <-> In i (ids b).

(** A new record passes the filter of a merge whose [max_id] is [m]. *)
Definition id_above (m : Z) (r : Row) : bool :=
  match id r with
  | Some i => m <? i
  | None => false
  end.

(** Datasets a session can hold: the empty frame of a new session, and
    whatever a merge returns from a reachable frame and a newly
    extracted batch that satisfies [ok]. *)
Inductive reachable (ok : DataFrame -> Prop) : DataFrame -> Prop :=
| reach_new : reachable ok DataFrame_new
| reach_merge d n d' :
    reachable ok d -> ok n -> merge (Some d) n = Ret d' -> reachable ok d'.

(** A batch as the data model describes the records of one source: an
    id column, ids strictly increasing. *)
Definition increasing_batch (n : DataFrame) : Prop :=
  has_column "id" n = true /\ StronglySorted Z.lt (ids n).

(** What the streaming path has accumulated in [d] after the records
    [seen] went through it: nothing yet, or a frame with an id column
    that holds the ids seen. *)
Definition stream_inv (d : DataFrame) (seen : list Row) : Prop :=
  (rows d = [] /\ seen = []) \/
  (has_column "id" d = true /\ row_ids (rows d) <> [] /\
   forall i, In i (row_ids (rows d)) <-> In i (row_ids seen)).

(** ** Concrete frames and logs *)

(** A record that carries only an id. *)
Definition row_with_id (i : Z) : Row := mkRow (Some i) None [] None.

(** A frame with an id column and one such record per id. *)
Definition frame_with_ids (l : list Z) : DataFrame :=
  mkDF ["id"] (map row_with_id l).

(** A frame without an id column, holding one record. *)
Definition frame_without_id : DataFrame :=
  mkDF ["latency"] [mkRow None (Some 1748351985647759) [] None].

(** The sample entry of the file format, with [i] as its id. *)
Definition sample_block (i : string) : string :=
  i +:+ " KPM ind_msg latency = 1748351985647759 [μs]" +:+ nl +:+
  "UE ID type = gNB, amf_ue_ngap_id = 1" +:+ nl +:+
  "ran_ue_id = 1" +:+ nl +:+
  "DRB.PdcpSduVolumeDL = 1355748 [kb]" +:+ nl +:+
  "DRB.PdcpSduVolumeUL = 11443 [kb]" +:+ nl +:+
  "DRB.RlcSduDelayDl = 6611.04 [μs]" +:+ nl +:+
  "DRB.UEThpDl = 1364419.02 [kbps]" +:+ nl +:+
  "DRB.UEThpUl = 12819.78 [kbps]" +:+ nl +:+
  "RRU.PrbTotDl = 2009726 [PRBs]" +:+ nl +:+
  "RRU.PrbTotUl = 92385 [PRBs]" +:+ nl.

(** A log of one block, id 12, and the same bytes delivered in two
    chunks, the first ending after the first digit. *)
Definition log_id_12 : string := sample_block "12".
Definition chunks_id_12 : list string := ["1"; sample_block "2"].

(** A log of two blocks, and the same bytes delivered block by block. *)
Definition log_ids_1_2 : string := sample_block "1" +:+ sample_block "2".
Definition chunks_ids_1_2 : list string := [sample_block "1"; sample_block "2"].

(** Modelled from the spec: the frame the engine [scripts/script.pl]
    and the reader give for a text. *)
Definition spec_frame (text : string) : DataFrame :=
  match spec_run_perl text with
  | Completed _ stdout _ =>
      match spec_read_csv stdout with
      | Parsed df => df
      | ParseError _ => DataFrame_new
      end
  | _ => DataFrame_new
  end.

(** The frames of [log_ids_1_2] and of its second block. *)
Definition frame_ids_1_2 : DataFrame := Eval vm_compute in spec_frame log_ids_1_2.
Definition frame_id_2 : DataFrame := Eval vm_compute in spec_frame (sample_block "2").

(** The frame of the first block of [log_ids_1_2]. *)
Definition frame_id_1 : DataFrame := Eval vm_compute in spec_frame (sample_block "1").

(** Modelled from the spec: an engine [scripts/script.pl] that exceeds
    its timeout (section 4.2) on one input and extracts as the spec
    describes on every other. *)
Definition engine_with_timeout (slow : string) (text : string) : outcome :=
  if String.eqb text slow
  then TimeoutExpired "Command '['perl', 'scripts/script.pl']' timed out after 30 seconds"
  else spec_run_perl text.

(** ** The window of the live dashboard *)

(** [df.tail(n)]: the last [n] rows, all of them when there are
    fewer. *)
Definition tail (n : nat) (df : DataFrame) : DataFrame :=
  mkDF (columns df) (skipn (length (rows df) - n) (rows df)).

(** The frame [display_real_time_metrics] plots:
    [df.tail(50) if len(df) > 50 else df]. *)
Definition display_df (df : DataFrame) : DataFrame :=
  if (50 <? length (rows df))%nat then tail 50 df else df.

(** The frame its raw-data table shows: [df.tail(10)]. *)
Definition recent_data (df : DataFrame) : DataFrame := tail 10 df.

(** ** The description of a file name *)

(** [str.lower] and [str.upper] on the ASCII range. *)
Definition to_lower (c : ascii) : ascii :=
  let n := nat_of_ascii c in
  if ((65 <=? n) && (n <=? 90))%nat then ascii_of_nat (n + 32) else c.

Definition to_upper (c : ascii) : ascii :=
  let n := nat_of_ascii c in
  if ((97 <=? n) && (n <=? 122))%nat then ascii_of_nat (n - 32) else c.

Fixpoint string_map (f : ascii -> ascii) (s : string) : string :=
  match s with
  | EmptyString => EmptyString
  | String c s' => String (f c) (string_map f s')
  end.

Definition lower (s : string) : string := string_map to_lower s.
Definition upper (s : string) : string := string_map to_upper s.

(** The class [[a-z]] of the pattern. *)
Definition is_lower_letter (c : ascii) : bool :=
  ((97 <=? nat_of_ascii c) && (nat_of_ascii c <=? 122))%nat.

(** The longest prefix of lower-case letters and what follows it. *)
Fixpoint take_letters (s : string) : string * string :=
  match s with
  | String c s' =>
      if is_lower_letter c
      then let '(d, rest) := take_letters s' in (String c d, rest)
      else (EmptyString, s)
  | EmptyString => (EmptyString, EmptyString)
  end.

(** [Path(p).name] on a POSIX path: the last component, empty and
    [.] components left out. *)
Definition path_name (p : string) : string :=
  List.last
    (List.filter (fun c => nonempty c && negb (String.eqb c ".")) (split_on "/" p))
    "".

(** [name.rfind(c)] *)
Fixpoint rfind (c : ascii) (s : string) : option nat :=
  match s with
  | EmptyString => None
  | String a s' =>
      match rfind c s' with
      | Some i => Some (S i)
      | None => if Ascii.eqb a c then Some O else None
      end
  end.

(** [PurePath.stem] of a name: the name up to its last dot, when that
    dot is neither the first nor the last character. *)
Definition stem (name : string) : string :=
  match rfind "." name with
  | Some i =>
      if ((0 <? i) && (i <? String.length name - 1))%nat
      then substring 0 i name
      else name
  | None => name
  end.

(** [re.match(pattern, name).groups()] for the pattern of the source:
    [u], one of [p] and [e], a group of any number of digits, [_], a
    group of one of [d] and [u] then one of [p] and [l], [_], a group
    of one or more letters [a-z], [_b], a group of one or more digits;
    matched at the start of the name, on ASCII digits.  Every
    repetition is followed by a character outside its class, so the
    longest runs are the only candidates. *)
Definition filename_groups (name : string)
  : option (string * string * string * string) :=
  match name with
  | String "u" (String c1 r1) =>
      if Ascii.eqb c1 "p" || Ascii.eqb c1 "e" then
        let '(ue_count_str, r2) := take_digits r1 in
        match r2 with
        | String "_" (String d1 (String d2 (String "_" r3))) =>
            if (Ascii.eqb d1 "d" || Ascii.eqb d1 "u")
               && (Ascii.eqb d2 "p" || Ascii.eqb d2 "l") then
              let '(traffic_type, r4) := take_letters r3 in
              match r4 with
              | String "_" (String "b" r5) =>
                  let '(bandwidth, _) := take_digits r5 in
                  if nonempty traffic_type && nonempty bandwidth
                  then Some (ue_count_str, String d1 (String d2 EmptyString),
                             traffic_type, bandwidth)
                  else None
              | _ => None
              end
            else None
        | _ => None
        end
      else None
  | _ => None
  end.

(** [str(n)] for an integer. *)
Definition str (n : Z) : string := NilZero.string_of_int (Z.to_int n).

(** [direction_map.get(direction, direction.upper())] *)
Definition direction_desc (direction : string) : string :=
  if String.eqb direction "dl" then "Downlink (Server → UE)"
  else if String.eqb direction "up" then "Uplink (UE → Server)"
  else if String.eqb direction "ul" then "Uplink (UE → Server)"
  else upper direction.

(** [traffic_map.get(traffic_type, traffic_type.upper())] *)
Definition traffic_desc (traffic_type : string) : string :=
  if String.eqb traffic_type "rtt" then "Ping (RTT)"
  else if String.eqb traffic_type "tcp" then "TCP"
  else if String.eqb traffic_type "udp" then "UDP"
  else upper traffic_type.

(** [parse_filename_description].  [int(ue_count_str)] raises
    ValueError past CPython's default limit of 4300 digits, which the
    handler answers with the fallback. *)
Definition parse_filename_description (filename : string) : string :=
  let name := stem (path_name filename) in
  match filename_groups (lower name) with
  | None => "File: " +:+ filename
  | Some (ue_count_str, direction, traffic_type, bandwidth) =>
      if (4300 <? String.length ue_count_str)%nat then "File: " +:+ filename
      else
        let ue_count := if nonempty ue_count_str
                        then digits_value 0 ue_count_str else 1 in
        let bandwidth_desc := bandwidth +:+ "MHz" in
        let ue_desc := str ue_count +:+ " UE" +:+ (if 1 <? ue_count then "s" else "") in
        "📊 " +:+ ue_desc +:+ " | " +:+ direction_desc direction +:+ " | "
          +:+ traffic_desc traffic_type +:+ " | " +:+ bandwidth_desc
  end.


(** Every character of the string satisfies [p]. *)
Fixpoint string_forall (p : ascii -> bool) (s : string) : bool :=
  match s with
  | EmptyString => true
  | String c s' => p c && string_forall p s'
  end.

(** Neither a path separator nor a dot. *)
Definition is_plain (c : ascii) : bool :=
  negb (Ascii.eqb c "/") && negb (Ascii.eqb c ".").

(** A file name written after the convention of the docstring,
    [u{p|e}{number}_{direction}_{traffic_type}_b{bandwidth}]. *)
Definition conventional_name (c1 : ascii) (ue : string) (d1 d2 : ascii)
  (traffic_type bandwidth : string) : string :=
  String "u" (String c1 (ue +:+
    String "_" (String d1 (String d2 (String "_" (traffic_type +:+
      String "_" (String "b" bandwidth))))))).


(** ** The streaming step, the batch ingestor and their drivers *)

Section Core.

(** The extraction process on a text block, and [pd.read_csv] on its
    standard output. *)
Variable run_perl : string -> outcome.
Variable read_csv : string -> parsed.

(** [RealTimeMetricsProcessor.process_incremental_data] *)
Definition process_incremental_data (new_content : string)
  (existing_df : option DataFrame) : reported (option DataFrame) :=
  match run_perl new_content with
  | TempFileError msg =>
      (existing_df, ["Error creating temporary file: " +:+ msg])
  | TimeoutExpired msg | RunError msg =>
      (existing_df, ["Error processing incremental data: " +:+ msg])
  | Completed returncode stdout _ =>
      if (returncode =? 0) && nonempty stdout then
        match read_csv stdout with
        | ParseError msg =>
            (existing_df, ["Error processing incremental data: " +:+ msg])
        | Parsed new_df =>
            match merge existing_df new_df with
            | Ret df => (Some df, [])
            | Raise msg =>
                (existing_df, ["Error processing incremental data: " +:+ msg])
            end
        end
      else (existing_df, [])
  end.

(** [NetworkMetricsProcessor.process_file] *)
Definition process_file (file_content filename : string)
  : reported (option DataFrame) :=
  match run_perl file_content with
  | TempFileError msg =>
      (None, ["Error creating temporary file for " +:+ filename +:+ ": " +:+ msg])
  | TimeoutExpired _ =>
      (None, ["Processing timeout for " +:+ filename])
  | RunError msg =>
      (None, ["Error running Perl script for " +:+ filename +:+ ": " +:+ msg])
  | Completed returncode stdout stderr =>
      if (returncode =? 0) && nonempty stdout then
        match read_csv stdout with
        | ParseError msg =>
            (None, ["Error running Perl script for " +:+ filename +:+ ": " +:+ msg])
        | Parsed df => (Some (set_source_file filename df), [])
        end
      else (None, ["Error processing " +:+ filename +:+ ": " +:+ stderr])
  end.

(** The extraction step on its own: the frame both paths build from a
    text block, or nothing when the engine or the reader failed. *)
Definition extract (text : string) : option DataFrame :=
  match run_perl text with
  | Completed returncode stdout _ =>
      if (returncode =? 0) && nonempty stdout then
        match read_csv stdout with
        | Parsed df => Some df
        | ParseError _ => None
        end
      else None
  | _ => None
  end.

(** The ways the extraction step fails on a text block. *)
Inductive extraction_failure (text : string) : Prop :=
| fail_tempfile msg :
    run_perl text = TempFileError msg -> extraction_failure text
| fail_timeout msg :
    run_perl text = TimeoutExpired msg -> extraction_failure text
| fail_run msg :
    run_perl text = RunError msg -> extraction_failure text
| fail_status returncode stdout stderr :
    run_perl text = Completed returncode stdout stderr -> returncode <> 0 ->
    extraction_failure text
| fail_empty_output returncode stderr :
    run_perl text = Completed returncode "" stderr -> extraction_failure text
| fail_unparseable returncode stdout stderr msg :
    run_perl text = Completed returncode stdout stderr ->
    read_csv stdout = ParseError msg -> extraction_failure text.

(** The records the streaming path gets out of one chunk. *)
Definition chunk_rows (chunk : string) : list Row :=
  if strip_nonempty chunk then
    match extract chunk with
    | Some n => rows n
    | None => []
    end
  else [].

(** One read-extract-merge cycle on a chunk, as the streaming tab
    does it with the chunk it has read: a blank chunk is skipped, and
    the session keeps its frame when the step returns [None]. *)
Definition stream_step (data : DataFrame) (chunk : string) : DataFrame :=
  if strip_nonempty chunk then
    match fst (process_incremental_data chunk (Some data)) with
    | Some updated_df => updated_df
    | None => data
    end
  else data.

(** The streaming path over a sequence of chunks, from the empty
    frame of a new session. *)
Definition stream (chunks : list string) : DataFrame :=
  fold_left stream_step chunks DataFrame_new.

(** [real_time_tab]: one run of the streaming tab (the page is re-run
    from the top by [st.rerun()] after every poll). *)
Definition real_time_tab (inp : tab_inputs) (ss : session_state)
  : reported session_state :=
  let rt_processor := RealTimeMetricsProcessor_init in
  let '(ss, rt_processor) :=
    if reset_clicked inp && nonempty (log_file_path inp)
    then (mkSession DataFrame_new None (rt_monitoring ss),
          reset_position rt_processor)
    else (ss, rt_processor) in
  if monitoring_enabled inp && nonempty (log_file_path inp) then
    let '(_, (new_content, errs)) :=
      read_new_data rt_processor (log_file inp) (log_file_path inp) in
    match new_content with
    | Some text =>
        if nonempty text then
          let '(updated_df, errs') :=
            process_incremental_data text (Some (rt_data ss)) in
          match updated_df with
          | Some df =>
              (mkSession df (Some (now inp)) (rt_monitoring ss), errs ++ errs')
          | None => (ss, errs ++ errs')
          end
        else (ss, errs)
    | None => (ss, errs)
    end
  else (ss, []).

(** The upload loop of [non_real_time_tab]: every uploaded (name,
    content) not yet in [processed_data] is ingested, and kept when
    it gave a frame that is not empty. *)
Fixpoint upload_loop (uploaded_files : list (string * string))
  (processed_data : gmap string DataFrame)
  : reported (gmap string DataFrame) :=
  match uploaded_files with
  | [] => (processed_data, [])
  | (name, file_content) :: rest =>
      match processed_data !! name with
      | Some _ => upload_loop rest processed_data
      | None =>
          let '(df, errs) := process_file file_content name in
          let processed_data' :=
            match df with
            | Some d => if negb (empty d) then <[name := d]> processed_data
                        else processed_data
            | None => processed_data
            end in
          let '(final, errs') := upload_loop rest processed_data' in
          (final, errs ++ errs')
      end
  end.


(** Successive runs of the streaming tab in one session. *)
Definition run_tab (inps : list tab_inputs) (ss : session_state) : session_state :=
  fold_left (fun ss inp => fst (real_time_tab inp ss)) inps ss.

(** Runs that monitor a growing log: every run has monitoring on, a
    path, no reset, and finds a content that is not blank and that the
    extraction turns into a frame with an id column, an id in every
    record, ids in non-decreasing order that start with the ids
    extracted at the run before ([prev]); [final] is the ids extracted
    at the last run. *)
Inductive polls_growing : list Z -> list tab_inputs -> list Z -> Prop :=
| polls_done prev : polls_growing prev [] prev
| polls_step prev inp rest data n more final :
    monitoring_enabled inp = true -> nonempty (log_file_path inp) = true ->
    reset_clicked inp = false ->
    log_file inp = Content data -> strip_nonempty data = true ->
    extract data = Some n ->
    has_column "id" n = true -> (forall r, In r (rows n) -> id r <> None) ->
    Sorted Z.le (ids n) -> ids n = prev ++ more ->
    polls_growing (ids n) rest final ->
    polls_growing prev (inp :: rest) final.

(** The dataset [d] holds the ids [l]: it has no record and [l] is
    empty, or it has an id column and its ids are those of [l]. *)
Definition holds_ids (d : DataFrame) (l : list Z) : Prop :=
  (rows d = [] /\ l = []) \/
  (has_column "id" d = true /\ ids d <> [] /\ forall i, In i (ids d) <-> In i l).


(** ** Facts about frames and the filter *)

Lemma gt_entry_id_above m r : gt_entry (id r) (Some m) = id_above m r.
Proof. unfold gt_entry, id_above. destruct (id r); reflexivity. Qed.

Lemma filter_gt_entry m rs :
  List.filter (fun r => gt_entry (id r) (Some m)) rs = List.filter (id_above m) rs.
Proof.
  induction rs as [|r rs IH]; simpl; [reflexivity|].
  rewrite gt_entry_id_above, IH. reflexivity.
Qed.

Lemma filter_gt_entry_nan rs :
  List.filter (fun r => gt_entry (id r) None) rs = [].
Proof.
  induction rs as [|r rs IH]; simpl; [reflexivity|].
  unfold gt_entry at 1. destruct (id r); exact IH.
Qed.

Lemma series_max_spec s :
  match series_max s with
  | Some m => In m (dropna s) /\ (forall i, In i (dropna s) -> i <= m)
  | None => dropna s = []
  end.
Proof.
  induction s as [|[x|] s IH]; simpl; [reflexivity| |exact IH].
  destruct (series_max s) as [m|].
  - destruct IH as [Hin Hle]. split.
    + destruct (Z.max_spec x m) as [[_ ->]|[_ ->]]; [right; exact Hin | left; reflexivity].
    + intros i [<-|Hi]; [lia|]. specialize (Hle i Hi). lia.
  - rewrite IH. split; [left; reflexivity|].
    intros i [<-|[]]. lia.
Qed.

Lemma dropna_app s t : dropna (s ++ t) = dropna s ++ dropna t.
Proof.
  induction s as [|[x|] s IH]; simpl; [reflexivity| |exact IH].
  rewrite IH. reflexivity.
Qed.

Lemma empty_false_iff df :
  empty df = false <-> columns df <> [] /\ rows df <> [].
Proof.
  unfold empty. destruct (columns df), (rows df); split; try discriminate;
    try (intros [? ?]; congruence); intros _; split; discriminate.
Qed.

Lemma has_column_columns c df : has_column c df = true -> columns df <> [].
Proof. unfold has_column. destruct (columns df); [discriminate|discriminate]. Qed.

Lemma empty_select_rows cols rs :
  cols <> [] -> empty (mkDF cols rs) = match rs with [] => true | _ => false end.
Proof. unfold empty; simpl. destruct cols; [congruence|]. destruct rs; reflexivity. Qed.

(** What [merge] does on a frame that is not empty, in terms of the
    filter alone. *)
Lemma merge_nonempty e n :
  empty e = false -> has_column "id" n = true ->
  merge (Some e) n =
    match List.filter (fun r => gt_entry (id r) (max_id_of e)) (rows n) with
    | [] => Ret e
    | kept => Ret (concat e (mkDF (columns n) kept))
    end.
Proof.
  intros He Hn. unfold merge, select_id_gt. rewrite He, Hn. simpl.
  rewrite empty_select_rows by (eapply has_column_columns; exact Hn).
  destruct (List.filter _ (rows n)); reflexivity.
Qed.

Lemma merge_nonempty_rows e n d :
  empty e = false -> has_column "id" n = true ->
  merge (Some e) n = Ret d ->
  rows d = rows e ++ List.filter (fun r => gt_entry (id r) (max_id_of e)) (rows n).
Proof.
  intros He Hn. rewrite (merge_nonempty e n He Hn).
  destruct (List.filter _ (rows n)) as [|k ks]; intros [= <-]; simpl.
  - rewrite app_nil_r. reflexivity.
  - reflexivity.
Qed.

Lemma merge_empty e n : empty e = true -> merge (Some e) n = Ret n.
Proof. intros He. unfold merge. rewrite He. reflexivity. Qed.

Lemma max_id_of_with_column e :
  has_column "id" e = true -> max_id_of e = series_max (map id (rows e)).
Proof. intros H. unfold max_id_of. rewrite H. reflexivity. Qed.

Lemma max_id_of_is_max e :
  has_column "id" e = true -> ids e <> [] ->
  exists m, max_id_of e = Some m /\ In m (ids e) /\ (forall i, In i (ids e) -> i <= m).
Proof.
  intros Hc Hne. rewrite (max_id_of_with_column e Hc).
  pose proof (series_max_spec (map id (rows e))) as Hs. unfold ids, row_ids in *.
  destruct (series_max (map id (rows e))) as [m|]; [|congruence].
  exists m. destruct Hs. auto.
Qed.

Lemma filter_id_above_nil m rs :
  (forall i, In i (row_ids rs) -> i <= m) -> List.filter (id_above m) rs = [].
Proof.
  unfold row_ids.
  induction rs as [|r rs IH]; simpl; intros H; [reflexivity|].
  unfold id_above at 1. destruct (id r) as [i|] eqn:Hi; simpl in H.
  - assert (i <= m) by (apply H; left; reflexivity).
    destruct (Z.ltb_spec m i); [lia|]. apply IH. intros j Hj. apply H. right. exact Hj.
  - apply IH. exact H.
Qed.

(** ** The incremental merger *)

(** C3: for a non-empty existing dataset with an id column, merge takes
    as max_id the maximum id of the existing dataset, keeps exactly the
    new records whose id is strictly greater, returns the existing
    dataset followed by them in their order when some remain and the
    existing dataset itself when none remain; for an empty (or absent)
    existing dataset the result is exactly the new records. *)
Theorem merge_appends_greater_ids (e n : DataFrame) :
  merge None n = Ret n /\
  (empty e = true -> merge (Some e) n = Ret n) /\
  (empty e = false -> has_column "id" e = true -> has_column "id" n = true ->
   ids e <> [] ->
   exists m,
     max_id_of e = Some m /\ In m (ids e) /\ (forall i, In i (ids e) -> i <= m) /\
     (List.filter (id_above m) (rows n) <> [] ->
      merge (Some e) n = Ret (concat e (mkDF (columns n) (List.filter (id_above m) (rows n)))) /\
      rows (concat e (mkDF (columns n) (List.filter (id_above m) (rows n))))
        = rows e ++ List.filter (id_above m) (rows n)) /\
     (List.filter (id_above m) (rows n) = [] -> merge (Some e) n = Ret e)).
Proof.
  split; [reflexivity|]. split; [apply merge_empty|].
  intros He Hce Hcn Hids.
  destruct (max_id_of_is_max e Hce Hids) as (m & Hm & Hin & Hle).
  exists m. repeat split; try assumption.
  - rewrite (merge_nonempty e n He Hcn), Hm, filter_gt_entry.
    destruct (List.filter (id_above m) (rows n)); [congruence|reflexivity].
  - rewrite (merge_nonempty e n He Hcn), Hm, filter_gt_entry.
    intros ->. reflexivity.
Qed.

(** The example of the spec: existing ids with maximum 6, new ids 5, 6
    and 7; exactly the record with id 7 is appended. *)
Lemma merge_appends_greater_ids_witness :
  merge (Some (frame_with_ids [4; 6])) (frame_with_ids [5; 6; 7])
  = Ret (frame_with_ids [4; 6; 7]).
Proof.
  destruct (merge_appends_greater_ids (frame_with_ids [4; 6]) (frame_with_ids [5; 6; 7]))
    as (_ & _ & H).
  destruct H as (m & Hm & _ & _ & Hk & _);
    [reflexivity | reflexivity | reflexivity | discriminate |].
  vm_compute in Hm. injection Hm as <-.
  destruct Hk as [Hk _]; [discriminate|]. exact Hk.
Defined.

(** ** Ids of the rows a merge keeps *)

Lemma row_ids_app a b : row_ids (a ++ b) = row_ids a ++ row_ids b.
Proof. unfold row_ids. rewrite map_app. apply dropna_app. Qed.

Lemma row_ids_cons r rs :
  row_ids (r :: rs) = match id r with Some i => i :: row_ids rs | None => row_ids rs end.
Proof. unfold row_ids. simpl. destruct (id r); reflexivity. Qed.

Lemma in_row_ids i rs : In i (row_ids rs) <-> exists r, In r rs /\ id r = Some i.
Proof.
  induction rs as [|r rs IH].
  - simpl. split; [intros []|intros (r & [] & _)].
  - rewrite row_ids_cons. split.
    + destruct (id r) as [j|] eqn:Hj.
      * intros [<-|H]; [exists r; split; [left; reflexivity|exact Hj]|].
        apply IH in H as (r' & ? & ?). exists r'. split; [right|]; assumption.
      * intros H. apply IH in H as (r' & ? & ?). exists r'. split; [right|]; assumption.
    + intros (r' & [<-|Hin] & Hid).
      * rewrite Hid. left. reflexivity.
      * assert (In i (row_ids rs)) by (apply IH; exists r'; auto).
        destruct (id r); [right|]; assumption.
Qed.

Lemma in_row_ids_filter m i rs :
  In i (row_ids (List.filter (id_above m) rs)) <-> In i (row_ids rs) /\ m < i.
Proof.
  rewrite !in_row_ids. split.
  - intros (r & Hin & Hid). apply filter_In in Hin as [Hin Hab].
    unfold id_above in Hab. rewrite Hid in Hab. apply Z.ltb_lt in Hab.
    split; [exists r; auto|exact Hab].
  - intros [(r & Hin & Hid) Hlt]. exists r. split; [|exact Hid].
    apply filter_In. split; [exact Hin|].
    unfold id_above. rewrite Hid. apply Z.ltb_lt. exact Hlt.
Qed.

Lemma row_ids_filter_sorted m rs :
  StronglySorted Z.lt (row_ids rs) ->
  StronglySorted Z.lt (row_ids (List.filter (id_above m) rs)).
Proof.
  induction rs as [|r rs IH]; simpl; [intros; constructor|].
  rewrite row_ids_cons. unfold id_above at 1.
  destruct (id r) as [i|] eqn:Hi; [|exact IH].
  intros Hs. apply StronglySorted_inv in Hs as [Hs Hall].
  destruct (m <? i); [|apply IH; exact Hs].
  rewrite row_ids_cons, Hi. constructor; [apply IH; exact Hs|].
  apply Forall_forall. intros j Hj. apply list_elem_of_In in Hj.
  apply in_row_ids_filter in Hj as [Hj _].
  rewrite Forall_forall in Hall. apply Hall. apply list_elem_of_In. exact Hj.
Qed.

Lemma strongly_sorted_lt_app (a b : list Z) :
  StronglySorted Z.lt a -> StronglySorted Z.lt b ->
  (forall x y, In x a -> In y b -> x < y) ->
  StronglySorted Z.lt (a ++ b).
Proof.
  intros Ha Hb Hab. apply StronglySorted_app_2; [|assumption..].
  intros x y Hx Hy. apply Hab; apply list_elem_of_In; assumption.
Qed.

Lemma strongly_sorted_lt_nodup (l : list Z) :
  StronglySorted Z.lt l -> List.NoDup l.
Proof.
  induction 1 as [|x l Hs IH Hall]; constructor; [|exact IH].
  intros Hin. rewrite Forall_forall in Hall.
  apply list_elem_of_In in Hin. specialize (Hall x Hin). lia.
Qed.

Lemma strongly_sorted_lt_le (l : list Z) :
  StronglySorted Z.lt l -> Sorted Z.le l.
Proof.
  intros H. apply StronglySorted_Sorted.
  induction H as [|x l Hs IH Hall]; constructor; [exact IH|].
  eapply Forall_impl; [exact Hall|]. intros y Hy. simpl in Hy. lia.
Qed.

Lemma has_column_concat c a b : has_column c a = true -> has_column c (concat a b) = true.
Proof.
  unfold has_column, concat; simpl. intros H. rewrite existsb_app, H. reflexivity.
Qed.

(** The invariant of a session fed with increasing batches. *)
Lemma reachable_increasing_inv d :
  reachable increasing_batch d ->
  StronglySorted Z.lt (ids d) /\ (empty d = false -> has_column "id" d = true).
Proof.
  induction 1 as [|d n d' Hr [IHs IHc] [Hcn Hsn] Hm].
  - split; [constructor|discriminate].
  - destruct (empty d) eqn:He.
    + rewrite (merge_empty d n He) in Hm. injection Hm as <-. auto.
    + specialize (IHc eq_refl).
      pose proof (merge_nonempty_rows d n d' He Hcn Hm) as Hrows.
      assert (Hcol : has_column "id" d' = true).
      { rewrite (merge_nonempty d n He Hcn) in Hm.
        destruct (List.filter _ (rows n)); injection Hm as <-;
          [exact IHc|apply has_column_concat; exact IHc]. }
      split; [|intros _; exact Hcol].
      unfold ids. rewrite Hrows, row_ids_app.
      rewrite (max_id_of_with_column d IHc).
      pose proof (series_max_spec (map id (rows d))) as Hmax.
      destruct (series_max (map id (rows d))) as [m|].
      * rewrite filter_gt_entry. destruct Hmax as [_ Hle].
        apply strongly_sorted_lt_app;
          [exact IHs|apply row_ids_filter_sorted; exact Hsn|].
        intros x y Hx Hy. apply in_row_ids_filter in Hy as [_ Hy].
        specialize (Hle x Hx). lia.
      * rewrite filter_gt_entry_nan. simpl. rewrite app_nil_r. exact IHs.
Qed.

(** C8 (as amended): when the existing dataset is not empty and has no
    id column, max_id is 0 and the merge does not fail; it appends
    exactly the new records whose id is greater than 0, which is all of
    them when every new id is positive. *)
Theorem merge_without_id_column (e n : DataFrame) :
  empty e = false -> has_column "id" e = false -> has_column "id" n = true ->
  max_id_of e = Some 0 /\
  (exists d, merge (Some e) n = Ret d /\
             rows d = rows e ++ List.filter (id_above 0) (rows n)) /\
  ((forall r, In r (rows n) -> id_above 0 r = true) ->
   exists d, merge (Some e) n = Ret d /\ rows d = rows e ++ rows n).
Proof.
  intros He Hce Hcn.
  assert (Hmax : max_id_of e = Some 0) by (unfold max_id_of; rewrite Hce; reflexivity).
  assert (Hd : exists d, merge (Some e) n = Ret d /\
                         rows d = rows e ++ List.filter (id_above 0) (rows n)).
  { rewrite (merge_nonempty e n He Hcn), Hmax, filter_gt_entry.
    destruct (List.filter (id_above 0) (rows n)) as [|k ks].
    - exists e. rewrite app_nil_r. split; reflexivity.
    - eexists. split; reflexivity. }
  split; [exact Hmax|]. split; [exact Hd|].
  intros Hall. destruct Hd as (d & Hm & Hrows). exists d. split; [exact Hm|].
  rewrite Hrows. f_equal. apply forallb_filter_id.
  apply forallb_forall. exact Hall.
Qed.

Lemma merge_without_id_column_witness :
  exists d, merge (Some frame_without_id) (frame_with_ids [1; 2]) = Ret d /\
            rows d = rows frame_without_id ++ rows (frame_with_ids [1; 2]).
Proof.
  apply (merge_without_id_column frame_without_id (frame_with_ids [1; 2]));
    [reflexivity | reflexivity | reflexivity |].
  intros r [<-|[<-|[]]]; reflexivity.
Defined.

(** C8 (as stated) fails: with no id column in the existing dataset, a
    new record whose id is 0 is not accepted; and when the new records
    have no id column either, the merge raises the KeyError of the
    filter and accepts nothing. *)
Lemma merge_without_id_column_drops_id_0 :
  empty frame_without_id = false /\
  has_column "id" frame_without_id = false /\
  max_id_of frame_without_id = Some 0 /\
  merge (Some frame_without_id) (frame_with_ids [0; 1])
    = Ret (concat frame_without_id (frame_with_ids [1])) /\
  In (row_with_id 0) (rows (frame_with_ids [0; 1])) /\
  ~ In (row_with_id 0) (rows (concat frame_without_id (frame_with_ids [1]))) /\
  merge (Some frame_without_id) frame_without_id = Raise "'id'".
Proof.
  repeat split; try reflexivity.
  - left. reflexivity.
  - simpl. intros [H|[H|[]]]; discriminate.
Qed.

(** C9 (as amended): every dataset reachable from the empty dataset by
    merges of batches that have an id column and strictly increasing
    ids has strictly increasing ids by insertion order, hence unique
    and non-decreasing ones; and a merge into a non-empty dataset with
    maximum id m keeps the existing records in place and appends only
    records whose id is greater than m. *)
Theorem reachable_ids_increasing (d : DataFrame) :
  reachable increasing_batch d ->
  StronglySorted Z.lt (ids d) /\ List.NoDup (ids d) /\ Sorted Z.le (ids d) /\
  (forall n d' m,
     empty d = false -> has_column "id" n = true -> max_id_of d = Some m ->
     merge (Some d) n = Ret d' ->
     exists kept,
       rows d' = rows d ++ kept /\ kept = List.filter (id_above m) (rows n) /\
       forall r, In r (rows n) -> id_above m r = false -> ~ In r kept).
Proof.
  intros Hr. destruct (reachable_increasing_inv d Hr) as [Hs _].
  split; [exact Hs|]. split; [apply strongly_sorted_lt_nodup; exact Hs|].
  split; [apply strongly_sorted_lt_le; exact Hs|].
  intros n d' m He Hcn Hmax Hm.
  exists (List.filter (id_above m) (rows n)).
  split; [|split; [reflexivity|]].
  - rewrite (merge_nonempty_rows d n d' He Hcn Hm), Hmax, filter_gt_entry. reflexivity.
  - intros r _ Hab Hin. apply filter_In in Hin as [_ Hin]. congruence.
Qed.

Lemma reachable_ids_increasing_witness :
  StronglySorted Z.lt (ids (frame_with_ids [4; 6; 7])).
Proof.
  apply (reachable_ids_increasing (frame_with_ids [4; 6; 7])).
  apply (reach_merge increasing_batch (frame_with_ids [4; 6]) (frame_with_ids [5; 6; 7])).
  - apply (reach_merge increasing_batch DataFrame_new (frame_with_ids [4; 6])).
    + apply reach_new.
    + split; [reflexivity|]. repeat constructor.
    + reflexivity.
  - split; [reflexivity|]. repeat constructor.
  - reflexivity.
Defined.

(** C9 (as stated) fails: the first merge of a session takes the batch
    as it is, so a batch with ids 2, 1, 2 gives a reachable dataset
    whose ids are neither unique nor non-decreasing. *)
Lemma reachable_ids_not_unique :
  reachable (fun _ => True) (frame_with_ids [2; 1; 2]) /\
  ids (frame_with_ids [2; 1; 2]) = [2; 1; 2] /\
  ~ List.NoDup (ids (frame_with_ids [2; 1; 2])) /\
  ~ Sorted Z.le (ids (frame_with_ids [2; 1; 2])).
Proof.
  split; [|split; [reflexivity|split]].
  - apply (reach_merge _ DataFrame_new (frame_with_ids [2; 1; 2]));
      [apply reach_new | exact I | reflexivity].
  - intros H. apply List.NoDup_cons_iff in H as [H _]. apply H.
    right. left. reflexivity.
  - intros H. apply Sorted_inv in H as [_ H]. apply HdRel_inv in H. lia.
Qed.

(** ** The cursor tracker *)

Lemma prefix_length (s1 s2 : string) :
  String.prefix s1 s2 = true -> (String.length s1 <= String.length s2)%nat.
Proof.
  revert s2. induction s1 as [|a s1 IH]; intros s2; [simpl; lia|].
  destruct s2 as [|b s2]; simpl; [discriminate|].
  destruct (ascii_dec a b); [|discriminate].
  intros H. specialize (IH s2 H). lia.
Qed.

Lemma read_position self data path :
  last_position (fst (read_new_data self (Content data) path))
  = Nat.max (last_position self) (String.length data).
Proof. reflexivity. Qed.

Lemma read_never_decreases self file path :
  (last_position self <= last_position (fst (read_new_data self file path)))%nat.
Proof.
  destruct file; simpl; [lia | lia |]. unfold tell_after_read. lia.
Qed.

Lemma reads_never_decrease ops :
  forall self, forallb is_read ops = true ->
  (last_position self <= last_position (fold_left tracker_step ops self))%nat.
Proof.
  induction ops as [|op ops IH]; intros self Hops; simpl; [lia|].
  simpl in Hops. apply andb_true_iff in Hops as [Hop Hops].
  specialize (IH (tracker_step self op) Hops).
  destruct op as [file|]; [|discriminate].
  pose proof (read_never_decreases self file "log"). simpl in *. lia.
Qed.

Lemma last_nonempty_default {A} (x : A) (l : list A) (d d' : A) :
  List.last (x :: l) d = List.last (x :: l) d'.
Proof.
  revert x. induction l as [|y l IH]; intros x; [reflexivity|].
  change (List.last (y :: l) d = List.last (y :: l) d'). apply IH.
Qed.

Lemma read_all_append_only snapshots :
  forall prev self,
    last_position self = String.length prev -> append_only prev snapshots ->
    last_position (read_all self snapshots) = String.length (List.last snapshots prev).
Proof.
  unfold read_all.
  induction snapshots as [|s rest IH]; intros prev self Hpos Hgrow; [exact Hpos|].
  destruct Hgrow as [Hpre Hgrow]. cbn [map fold_left].
  assert (Hs : last_position (tracker_step self (OpRead (Content s))) = String.length s).
  { simpl. unfold tell_after_read. apply prefix_length in Hpre. lia. }
  rewrite (IH s _ Hs Hgrow).
  destruct rest as [|s' rest]; [reflexivity|].
  change (List.last (s :: s' :: rest) prev) with (List.last (s' :: rest) prev).
  f_equal. apply last_nonempty_default.
Qed.

(** C4: a read never moves the cursor backward, so across any sequence
    of reads without a reset the cursor never decreases; a successful
    read leaves the cursor where it stopped, the end of the file (the
    maximum of the old cursor and the file length, which is the file
    length on a file that is only appended to); reset sets the cursor
    to exactly 0 and the next read starts from offset 0, handing over
    the whole content. *)
Theorem cursor_monotone_until_reset :
  (forall self file path,
     (last_position self <= last_position (fst (read_new_data self file path)))%nat) /\
  (forall ops self, forallb is_read ops = true ->
     (last_position self <= last_position (fold_left tracker_step ops self))%nat) /\
  (forall self data path,
     last_position (fst (read_new_data self (Content data) path))
     = Nat.max (last_position self) (String.length data)) /\
  (forall self data path, (last_position self <= String.length data)%nat ->
     last_position (fst (read_new_data self (Content data) path)) = String.length data) /\
  (forall prev snapshots self,
     last_position self = String.length prev -> append_only prev snapshots ->
     last_position (read_all self snapshots) = String.length (List.last snapshots prev)) /\
  (forall self, last_position (reset_position self) = 0%nat) /\
  (forall self data path,
     read_new_data (reset_position self) (Content data) path
     = (mkRT (perl_script_path self) (String.length data) (monitoring self),
        (if strip_nonempty data then Some data else None, []))).
Proof.
  split; [exact read_never_decreases|].
  split; [exact reads_never_decrease|].
  split; [exact read_position|].
  split; [intros self data path H; rewrite read_position; lia|].
  split; [intros prev snapshots; apply read_all_append_only|].
  split; [reflexivity|].
  intros self data path. reflexivity.
Qed.

Lemma cursor_monotone_until_reset_witness :
  last_position (read_all RealTimeMetricsProcessor_init ["ab"; "abcd"]) = 4%nat /\
  (last_position RealTimeMetricsProcessor_init
   <= last_position (fold_left tracker_step [OpRead (Content "ab"); OpRead Missing]
                       RealTimeMetricsProcessor_init))%nat.
Proof.
  destruct cursor_monotone_until_reset as (_ & Hmono & _ & _ & Hgrow & _).
  split.
  - apply (Hgrow "" ["ab"; "abcd"] RealTimeMetricsProcessor_init).
    + reflexivity.
    + vm_compute. repeat split.
  - apply (Hmono [OpRead (Content "ab"); OpRead Missing]). reflexivity.
Defined.

(** C5: on a path that does not exist, on an empty file and on a file
    that holds only whitespace past the cursor, the read returns no new
    data and reports no error; on a path that does not exist the
    tracker, cursor included, is what it was. *)
Theorem read_new_data_nothing_new (self : RealTimeMetricsProcessor) (path : string) :
  read_new_data self Missing path = (self, (None, [])) /\
  snd (read_new_data self (Content "") path) = (None, []) /\
  (forall data, strip_nonempty (read_from (last_position self) data) = false ->
     snd (read_new_data self (Content data) path) = (None, [])).
Proof.
  split; [reflexivity|].
  assert (H : forall data, strip_nonempty (read_from (last_position self) data) = false ->
                           snd (read_new_data self (Content data) path) = (None, [])).
  { intros data Hblank. simpl. rewrite Hblank. reflexivity. }
  split; [|exact H].
  apply H. destruct (last_position self); reflexivity.
Qed.

Lemma read_new_data_nothing_new_witness :
  snd (read_new_data (mkRT "scripts/script.pl" 3 false) (Content "abc  ") "realtime.log")
  = (None, []).
Proof.
  apply (read_new_data_nothing_new (mkRT "scripts/script.pl" 3 false) "realtime.log").
  reflexivity.
Defined.

(** ** The streaming step and the batch ingestor *)

Lemma strip_nonempty_nonempty s : strip_nonempty s = true -> nonempty s = true.
Proof. destruct s; [discriminate|reflexivity]. Qed.

Lemma ids_set_source_file filename df : ids (set_source_file filename df) = ids df.
Proof.
  unfold ids, row_ids, set_source_file; simpl. rewrite map_map. reflexivity.
Qed.

Lemma mentions_mid pre x post : mentions (pre +:+ x +:+ post) x.
Proof. exists pre, post. reflexivity. Qed.

Lemma mentions_end pre x : mentions (pre +:+ x) x.
Proof.
  exists pre, "". f_equal. induction x as [|c x IH]; [reflexivity|].
  change (String c x = String c (x +:+ "")). f_equal. exact IH.
Qed.

Lemma extract_None_iff text : extract text = None <-> extraction_failure text.
Proof.
  unfold extract. split.
  - destruct (run_perl text) as [msg|msg|msg|rc out err] eqn:Hrun;
      [intros _; eapply fail_tempfile; eauto
      |intros _; eapply fail_timeout; eauto
      |intros _; eapply fail_run; eauto|].
    destruct (Z.eqb_spec rc 0) as [->|Hrc]; simpl;
      [|intros _; eapply fail_status; eauto].
    destruct out as [|c out]; simpl;
      [intros _; eapply fail_empty_output; eauto|].
    destruct (read_csv (String c out)) as [df|msg] eqn:Hcsv; [discriminate|].
    intros _. eapply fail_unparseable; eauto.
  - intros [msg H|msg H|msg H|rc out err H Hrc|rc err H|rc out err msg H Hcsv];
      rewrite H; try reflexivity.
    + destruct (Z.eqb_spec rc 0); [contradiction|reflexivity].
    + rewrite andb_false_r. reflexivity.
    + rewrite Hcsv. destruct (_ && _); reflexivity.
Qed.

Lemma process_incremental_data_extract text existing :
  fst (process_incremental_data text existing) =
    match extract text with
    | Some n =>
        match merge existing n with
        | Ret d => Some d
        | Raise _ => existing
        end
    | None => existing
    end.
Proof.
  unfold process_incremental_data, extract.
  destruct (run_perl text) as [msg|msg|msg|rc out err]; try reflexivity.
  destruct ((rc =? 0) && nonempty out); [|reflexivity].
  destruct (read_csv out) as [n|msg]; [|reflexivity].
  destruct (merge existing n); reflexivity.
Qed.

Lemma process_file_extract file_content filename :
  fst (process_file file_content filename) =
    match extract file_content with
    | Some df => Some (set_source_file filename df)
    | None => None
    end.
Proof.
  unfold process_file, extract.
  destruct (run_perl file_content) as [msg|msg|msg|rc out err]; try reflexivity.
  destruct ((rc =? 0) && nonempty out); [|reflexivity].
  destruct (read_csv out) as [n|msg]; reflexivity.
Qed.

(** A chunk whose ids are all at most the maximum id held leaves the
    dataset as it is. *)
Lemma merge_stale e n m :
  has_column "id" e = true -> In m (ids e) -> (forall i, In i (ids e) -> i <= m) ->
  (forall i, In i (ids n) -> i <= m) ->
  merge (Some e) n = (if has_column "id" n then Ret e else Raise "'id'").
Proof.
  intros Hce Hin Hmax Hn.
  assert (Hids : ids e <> []) by (intros H; rewrite H in Hin; destruct Hin).
  assert (He : empty e = false).
  { apply empty_false_iff. split; [eapply has_column_columns; exact Hce|].
    intros Hr. apply Hids. unfold ids. rewrite Hr. reflexivity. }
  destruct (has_column "id" n) eqn:Hcn.
  - destruct (max_id_of_is_max e Hce Hids) as (m' & Hm' & Hin' & Hle').
    assert (m' = m) by (specialize (Hmax m' Hin'); specialize (Hle' m Hin); lia).
    subst m'. rewrite (merge_nonempty e n He Hcn), Hm', filter_gt_entry.
    rewrite (filter_id_above_nil m (rows n) Hn). reflexivity.
  - unfold merge, select_id_gt. rewrite He, Hcn. reflexivity.
Qed.

(** C2: when every id of the newly extracted records is at most the
    maximum id present in the dataset, the merge returns the dataset
    itself, and so does the streaming step on the chunk the records
    were extracted from. *)
Theorem merge_already_seen (e n : DataFrame) (m : Z) (chunk : string) :
  has_column "id" e = true ->
  In m (ids e) -> (forall i, In i (ids e) -> i <= m) ->
  (forall i, In i (ids n) -> i <= m) ->
  (has_column "id" n = true -> merge (Some e) n = Ret e) /\
  (extract chunk = Some n ->
   fst (process_incremental_data chunk (Some e)) = Some e).
Proof.
  intros Hce Hin Hmax Hn.
  pose proof (merge_stale e n m Hce Hin Hmax Hn) as Hm.
  split.
  - intros Hcn. rewrite Hm, Hcn. reflexivity.
  - intros Hx. rewrite process_incremental_data_extract, Hx, Hm.
    destruct (has_column "id" n); reflexivity.
Qed.

(** C6: when the extraction step fails on the input (the engine
    exits with a non-zero status, times out, cannot be run, writes
    nothing, or writes text the reader rejects), the streaming step
    returns the dataset it was given. *)
Theorem process_incremental_data_keeps_on_failure
  (new_content : string) (existing_df : option DataFrame) :
  extraction_failure new_content ->
  fst (process_incremental_data new_content existing_df) = existing_df.
Proof.
  intros Hfail. apply extract_None_iff in Hfail.
  rewrite process_incremental_data_extract, Hfail. reflexivity.
Qed.

Lemma upload_loop_keeps files :
  forall processed_data name d,
    processed_data !! name = Some d ->
    fst (upload_loop files processed_data) !! name = Some d.
Proof.
  induction files as [|[name' file_content] files IH];
    intros processed_data name d Hd; [exact Hd|].
  simpl. destruct (processed_data !! name') as [d'|] eqn:Hname'.
  - apply IH. exact Hd.
  - assert (Hne : name' <> name) by congruence.
    destruct (process_file file_content name') as [df errs].
    match goal with
    | |- context [upload_loop files ?pd] =>
        specialize (IH pd name d);
        destruct (upload_loop files pd) as [final errs']
    end.
    simpl in *. apply IH.
    destruct df as [d0|]; [|exact Hd].
    destruct (negb (empty d0)); [|exact Hd].
    rewrite lookup_insert_ne; assumption.
Qed.

Lemma upload_loop_ingests pre :
  forall post processed_data filename file_content d,
    ~ In filename (map fst pre) -> processed_data !! filename = None ->
    fst (process_file file_content filename) = Some d -> empty d = false ->
    fst (upload_loop (pre ++ (filename, file_content) :: post) processed_data)
      !! filename = Some d.
Proof.
  induction pre as [|[name' content'] pre IH];
    intros post processed_data filename file_content d Hnotin Hnone Hdf Hne.
  - simpl. rewrite Hnone.
    destruct (process_file file_content filename) as [df errs].
    simpl in Hdf. subst df. rewrite Hne. simpl.
    pose proof (upload_loop_keeps post (<[filename:=d]> processed_data) filename d
                  (lookup_insert_eq _ _ _)) as Hk.
    destruct (upload_loop post _) as [final errs'].
    exact Hk.
  - simpl in Hnotin. simpl.
    assert (Hn' : name' <> filename) by tauto.
    assert (Hnotin' : ~ In filename (map fst pre)) by tauto.
    destruct (processed_data !! name') as [d'|] eqn:Hname'.
    + apply IH; assumption.
    + destruct (process_file content' name') as [df errs].
      match goal with
      | |- context [upload_loop _ ?pd] =>
          specialize (IH post pd filename file_content d Hnotin');
          destruct (upload_loop
                      (pre ++ (filename, file_content) :: post) pd) as [final errs']
      end.
      simpl in *. apply IH; [|assumption..].
      destruct df as [d0|]; [|exact Hnone].
      destruct (negb (empty d0)); [|exact Hnone].
      rewrite lookup_insert_ne; assumption.
Qed.

(** C7: batch ingestion returns a dataset exactly when the extraction
    succeeds, and every record of that dataset carries the source
    name in [source_file]; when the extraction fails it returns no
    dataset and reports one failure that names the source; and in a
    batch of uploads a source that is ingested is kept whatever
    happens to the other sources. *)
Theorem process_file_tags_or_reports (file_content filename : string) :
  (forall df, extract file_content = Some df ->
     process_file file_content filename = (Some (set_source_file filename df), []) /\
     forall r, In r (rows (set_source_file filename df)) -> source_file r = Some filename) /\
  (extraction_failure file_content ->
     exists msg, process_file file_content filename = (None, [msg]) /\
                 mentions msg filename) /\
  (is_Some (fst (process_file file_content filename)) <->
   ~ extraction_failure file_content) /\
  (forall pre post processed_data d,
     ~ In filename (map fst pre) -> processed_data !! filename = None ->
     fst (process_file file_content filename) = Some d -> empty d = false ->
     fst (upload_loop (pre ++ (filename, file_content) :: post) processed_data)
       !! filename = Some d).
Proof.
  split; [|split; [|split]].
  - intros df Hx. split.
    + unfold process_file. unfold extract in Hx.
      destruct (run_perl file_content) as [msg|msg|msg|rc out err]; try discriminate.
      destruct ((rc =? 0) && nonempty out); [|discriminate].
      destruct (read_csv out) as [n|msg]; [|discriminate].
      injection Hx as ->. reflexivity.
    + intros r Hin. unfold set_source_file in Hin; simpl in Hin.
      apply in_map_iff in Hin as (r0 & <- & _). reflexivity.
  - intros Hfail. unfold process_file.
    destruct Hfail as [msg H|msg H|msg H|rc out err H Hrc|rc err H|rc out err msg H Hcsv];
      rewrite H.
    + eexists. split; [reflexivity|apply mentions_mid].
    + eexists. split; [reflexivity|apply mentions_end].
    + eexists. split; [reflexivity|apply mentions_mid].
    + destruct (Z.eqb_spec rc 0); [contradiction|]. simpl.
      eexists. split; [reflexivity|apply mentions_mid].
    + rewrite andb_false_r.
      eexists. split; [reflexivity|apply mentions_mid].
    + rewrite Hcsv. destruct ((rc =? 0) && nonempty out);
        eexists; (split; [reflexivity|apply mentions_mid]).
  - rewrite process_file_extract, <- extract_None_iff.
    destruct (extract file_content); split.
    + intros _; discriminate.
    + intros _. eexists; reflexivity.
    + intros [x Hx]; discriminate.
    + intros H; contradiction H; reflexivity.
  - intros pre post processed_data d. apply upload_loop_ingests.
Qed.

(** ** The streaming path against the batch path *)

Lemma rows_nil_empty d : rows d = [] -> empty d = true.
Proof. unfold empty. intros ->. destruct (columns d); reflexivity. Qed.

Lemma row_ids_nonempty_rows rs : row_ids rs <> [] -> rs <> [].
Proof. intros H ->. apply H. reflexivity. Qed.

Lemma stream_step_inv d seen c :
  stream_inv d seen ->
  (forall n, extract c = Some n -> has_column "id" n = true) ->
  (forall r, In r (chunk_rows c) -> id r <> None) ->
  (forall x y, In x (row_ids seen) -> In y (row_ids (chunk_rows c)) -> x <= y) ->
  stream_inv (stream_step d c) (seen ++ chunk_rows c).
Proof.
  unfold stream_step, chunk_rows. intros Hinv Hcol Hids Hord.
  destruct (strip_nonempty c); [|rewrite app_nil_r; exact Hinv].
  rewrite process_incremental_data_extract.
  destruct (extract c) as [n|]; [|rewrite app_nil_r; exact Hinv].
  specialize (Hcol n eq_refl).
  destruct Hinv as [[Hd ->]|(Hcd & Hne & Hiff)].
  - rewrite (merge_empty d n (rows_nil_empty d Hd)). simpl.
    destruct (rows n) as [|r rs] eqn:Hrows; [left; split; [exact Hrows|reflexivity]|].
    right. rewrite Hrows. split; [exact Hcol|]. split; [|tauto].
    rewrite row_ids_cons. specialize (Hids r (or_introl eq_refl)).
    destruct (id r); [discriminate|congruence].
  - assert (He : empty d = false).
    { apply empty_false_iff. split; [eapply has_column_columns; exact Hcd|].
      apply row_ids_nonempty_rows. exact Hne. }
    destruct (max_id_of_is_max d Hcd Hne) as (m & Hm & Hin & Hle).
    assert (Hd' : exists d', merge (Some d) n = Ret d' /\ has_column "id" d' = true /\
                             rows d' = rows d ++ List.filter (id_above m) (rows n)).
    { rewrite (merge_nonempty d n He Hcol), Hm, filter_gt_entry.
      destruct (List.filter (id_above m) (rows n)) as [|k ks].
      - exists d. rewrite app_nil_r. auto.
      - eexists. split; [reflexivity|]. split; [apply has_column_concat; exact Hcd|reflexivity]. }
    destruct Hd' as (d' & -> & Hcd' & Hrows').
    right. split; [exact Hcd'|]. rewrite Hrows', !row_ids_app. split.
    + intros H. apply app_eq_nil in H as [H _]. contradiction.
    + intros i. rewrite !in_app_iff, in_row_ids_filter, Hiff. split.
      * intros [H|[H _]]; [left|right]; exact H.
      * intros [H|H]; [left; exact H|].
        assert (m <= i) by (apply Hord; [apply Hiff; exact Hin|exact H]).
        destruct (Z.eq_dec i m) as [->|Hneq].
        -- left. apply Hiff. exact Hin.
        -- right. split; [exact H|lia].
Qed.

Lemma stream_inv_fold chunks :
  forall d seen,
    stream_inv d seen ->
    (forall c n, In c chunks -> extract c = Some n -> has_column "id" n = true) ->
    (forall r, In r (flat_map chunk_rows chunks) -> id r <> None) ->
    StronglySorted Z.le (row_ids (seen ++ flat_map chunk_rows chunks)) ->
    stream_inv (fold_left stream_step chunks d) (seen ++ flat_map chunk_rows chunks).
Proof.
  induction chunks as [|c chunks IH]; intros d seen Hinv Hcol Hids Hsorted; simpl.
  - rewrite app_nil_r. exact Hinv.
  - simpl in Hids, Hsorted. rewrite app_assoc. apply IH.
    + apply stream_step_inv; [exact Hinv | | |].
      * intros n. apply Hcol. left. reflexivity.
      * intros r Hr. apply Hids. apply in_app_iff. left. exact Hr.
      * intros x y Hx Hy. rewrite row_ids_app in Hsorted.
        apply StronglySorted_app in Hsorted as (Hxy & _ & _).
        apply Hxy; apply list_elem_of_In; [exact Hx|].
        rewrite row_ids_app. apply in_app_iff. left. exact Hy.
    + intros c' n Hc'. apply Hcol. right. exact Hc'.
    + intros r Hr. apply Hids. apply in_app_iff. right. exact Hr.
    + rewrite <- app_assoc. exact Hsorted.
Qed.

(** C1 (as amended): when the batch extraction of the full log
    succeeds, every record it yields has an id, these ids are
    non-decreasing, every frame extracted from a chunk has an id
    column, and the records extracted from the chunks, in order, are
    the records extracted from the full log (the chunk boundaries
    fall between measurement blocks), the streaming path over the
    chunks ends with the same set of ids as the batch ingestion of
    the full log. *)
Theorem stream_matches_batch
  (chunks : list string) (full filename : string) (df : DataFrame) :
  extract full = Some df ->
  flat_map chunk_rows chunks = rows df ->
  (forall c n, In c chunks -> extract c = Some n -> has_column "id" n = true) ->
  (forall r, In r (rows df) -> id r <> None) ->
  Sorted Z.le (ids df) ->
  fst (process_file full filename) = Some (set_source_file filename df) /\
  same_id_set (stream chunks) (set_source_file filename df).
Proof.
  intros Hfull Hrows Hcol Hids Hsorted. split.
  - rewrite process_file_extract, Hfull. reflexivity.
  - assert (Hinv : stream_inv (stream chunks) ([] ++ flat_map chunk_rows chunks)).
    { apply stream_inv_fold.
      - left. split; reflexivity.
      - exact Hcol.
      - rewrite Hrows. exact Hids.
      - simpl. rewrite Hrows. apply Sorted.Sorted_StronglySorted; [|exact Hsorted].
        intros x y z. apply Z.le_trans. }
    simpl in Hinv. rewrite Hrows in Hinv.
    unfold same_id_set. rewrite ids_set_source_file. unfold ids.
    destruct Hinv as [[Hd Hdf]|(_ & _ & Hiff)].
    + rewrite Hd, <- Hdf. tauto.
    + exact Hiff.
Qed.

(** ** The streaming tab *)

(** C10: every run of the streaming tab builds a new processor, whose
    cursor is 0, so its read hands over the whole content of the
    monitored file, and the dataset of the session after the run is
    the streaming step on that whole content; two runs in a row on
    the same file feed the whole content to the step twice, leaving
    the id filter of the merge as the only guard against
    duplicates. *)
Theorem real_time_tab_rereads_file
  (inp : tab_inputs) (ss : session_state) (data : string) :
  monitoring_enabled inp = true -> nonempty (log_file_path inp) = true ->
  log_file inp = Content data ->
  last_position RealTimeMetricsProcessor_init = 0%nat /\
  fst (snd (read_new_data RealTimeMetricsProcessor_init (Content data) (log_file_path inp)))
    = (if strip_nonempty data then Some data else None) /\
  rt_data (fst (real_time_tab inp ss))
    = stream_step (if reset_clicked inp then DataFrame_new else rt_data ss) data /\
  (reset_clicked inp = false ->
   rt_data (fst (real_time_tab inp (fst (real_time_tab inp ss))))
   = stream_step (stream_step (rt_data ss) data) data).
Proof.
  intros Hmon Hpath Hfile.
  assert (Hrun : forall ss0,
    rt_data (fst (real_time_tab inp ss0))
    = stream_step (if reset_clicked inp then DataFrame_new else rt_data ss0) data).
  { intros ss0. unfold real_time_tab, stream_step.
    rewrite Hmon, Hpath, Hfile, andb_true_r. simpl.
    destruct (reset_clicked inp); simpl;
      (destruct (strip_nonempty data) eqn:Hs; [|reflexivity];
       rewrite (strip_nonempty_nonempty data Hs);
       match goal with
       | |- context [process_incremental_data data ?e] =>
           destruct (process_incremental_data data e) as [[df|] errs]
       end; reflexivity). }
  split; [reflexivity|]. split; [reflexivity|]. split; [apply Hrun|].
  intros Hreset. rewrite !Hrun, Hreset. reflexivity.
Qed.

(** ** More on the streaming step *)


Lemma series_max_none_filter s rs :
  series_max s = None -> List.filter (fun r => gt_entry (id r) (series_max s)) rs = [].
Proof. intros ->. apply filter_gt_entry_nan. Qed.





Lemma process_incremental_data_some text e :
  exists d', fst (process_incremental_data text (Some e)) = Some d'.
Proof.
  rewrite process_incremental_data_extract.
  destruct (extract text) as [n|]; [|eauto].
  destruct (merge (Some e) n); eauto.
Qed.

Lemma process_incremental_data_grows text e d' :
  fst (process_incremental_data text (Some e)) = Some d' -> empty e = false ->
  exists cols kept, columns d' = columns e ++ cols /\ rows d' = rows e ++ kept.
Proof.
  rewrite process_incremental_data_extract. intros H He.
  assert (Hsame : exists cols kept,
            columns e = columns e ++ cols /\ rows e = rows e ++ kept)
    by (exists [], []; rewrite !app_nil_r; split; reflexivity).
  destruct (extract text) as [n|]; [|injection H as <-; exact Hsame].
  unfold merge, select_id_gt in H. rewrite He in H. simpl in H.
  destruct (has_column "id" n); [|injection H as <-; exact Hsame].
  destruct (negb (empty _)); injection H as <-; [|exact Hsame].
  eexists _, _. split; reflexivity.
Qed.

(** X2: given a dataset, the streaming step always returns a dataset;
    when the given dataset is not empty, the returned one has its
    columns first and its records first, unchanged and in order,
    whatever the engine did. *)
Theorem process_incremental_data_append_only (text : string) (e : DataFrame) :
  exists d',
    fst (process_incremental_data text (Some e)) = Some d' /\
    (empty e = false ->
     exists cols kept, columns d' = columns e ++ cols /\ rows d' = rows e ++ kept).
Proof.
  destruct (process_incremental_data_some text e) as [d' Hd'].
  exists d'. split; [exact Hd'|].
  apply (process_incremental_data_grows text e d' Hd').
Qed.

Lemma prefix_append (p s : string) : String.prefix p (p +:+ s) = true.
Proof.
  induction p as [|c p IH]; [destruct s; reflexivity|].
  change (String.prefix (String c p) (String c (p +:+ s)) = true). simpl.
  destruct (ascii_dec c c); [exact IH|congruence].
Qed.

(** X3: the streaming step reports at most one error; when it reports
    one it returns the dataset it was given, and the message starts
    with the text of one of its two handlers; a non-zero exit status
    and an empty output are not reported at all. *)
Theorem process_incremental_data_reports
  (text : string) (existing : option DataFrame) :
  (snd (process_incremental_data text existing) = [] \/
   exists msg,
     process_incremental_data text existing = (existing, [msg]) /\
     (String.prefix "Error processing incremental data: " msg = true \/
      String.prefix "Error creating temporary file: " msg = true)) /\
  (forall returncode stdout stderr,
     run_perl text = Completed returncode stdout stderr ->
     returncode <> 0 \/ stdout = "" ->
     process_incremental_data text existing = (existing, [])).
Proof.
  unfold process_incremental_data. split.
  - destruct (run_perl text) as [msg|msg|msg|rc out err].
    + right. eexists. split; [reflexivity|]. right. apply prefix_append.
    + right. eexists. split; [reflexivity|]. left. apply prefix_append.
    + right. eexists. split; [reflexivity|]. left. apply prefix_append.
    + destruct ((rc =? 0) && nonempty out); [|left; reflexivity].
      destruct (read_csv out) as [n|msg].
      * destruct (merge existing n); [left; reflexivity|].
        right. eexists. split; [reflexivity|]. left. apply prefix_append.
      * right. eexists. split; [reflexivity|]. left. apply prefix_append.
  - intros rc out err -> [Hrc| ->].
    + destruct (Z.eqb_spec rc 0); [contradiction|reflexivity].
    + rewrite andb_false_r. reflexivity.
Qed.

(** X4: when the dataset given is not empty and the newly extracted
    frame has no id column, the filter raises KeyError: the step
    returns the dataset it was given and reports the key. *)
Theorem process_incremental_data_missing_id
  (text : string) (e n : DataFrame) :
  extract text = Some n -> empty e = false -> has_column "id" n = false ->
  process_incremental_data text (Some e)
  = (Some e, ["Error processing incremental data: 'id'"]).
Proof.
  unfold extract, process_incremental_data. intros Hx He Hc.
  destruct (run_perl text) as [msg|msg|msg|rc out err]; try discriminate.
  destruct ((rc =? 0) && nonempty out); [|discriminate].
  destruct (read_csv out) as [n'|msg]; [|discriminate].
  injection Hx as ->. unfold merge, select_id_gt. rewrite He, Hc. reflexivity.
Qed.

(** X5: one chunk that holds the whole log, fed to the streaming path
    of a new session, gives the extracted frame itself; batch
    ingestion of the same text gives that frame with the tag added:
    same records in the same order, same ids, latencies and
    measurements. *)
Theorem stream_single_chunk_is_batch (full filename : string) (df : DataFrame) :
  strip_nonempty full = true -> extract full = Some df ->
  stream [full] = df /\
  fst (process_file full filename) = Some (set_source_file filename df) /\
  map id (rows (set_source_file filename df)) = map id (rows (stream [full])) /\
  map latency (rows (set_source_file filename df)) = map latency (rows (stream [full])) /\
  map metrics (rows (set_source_file filename df)) = map metrics (rows (stream [full])).
Proof.
  intros Hs Hx.
  assert (Hst : stream [full] = df).
  { unfold stream, stream_step; simpl. rewrite Hs, process_incremental_data_extract, Hx.
    reflexivity. }
  split; [exact Hst|]. split; [rewrite process_file_extract, Hx; reflexivity|].
  rewrite Hst. unfold set_source_file; simpl. rewrite !map_map. simpl.
  repeat split; reflexivity.
Qed.

(** X6: a batch whose records all have an id above the maximum id of a
    non-empty dataset is appended whole. *)
Theorem merge_all_new (e n : DataFrame) (m : Z) :
  empty e = false -> max_id_of e = Some m ->
  has_column "id" n = true -> rows n <> [] ->
  (forall r, In r (rows n) -> id_above m r = true) ->
  merge (Some e) n = Ret (concat e n).
Proof.
  intros He Hm Hcn Hrows Hall.
  rewrite (merge_nonempty e n He Hcn), Hm, filter_gt_entry.
  rewrite forallb_filter_id by (apply forallb_forall; exact Hall).
  destruct n as [cols rs]; simpl in *. destruct rs; [congruence|reflexivity].
Qed.

(** ** More on the streaming tab *)

(** The session a run of the tab leaves, case by case. *)
Lemma real_time_tab_session inp ss :
  fst (real_time_tab inp ss) =
    let ss0 := if reset_clicked inp && nonempty (log_file_path inp)
               then mkSession DataFrame_new None (rt_monitoring ss) else ss in
    if monitoring_enabled inp && nonempty (log_file_path inp) then
      match log_file inp with
      | Content data =>
          if strip_nonempty data then
            match fst (process_incremental_data data (Some (rt_data ss0))) with
            | Some df => mkSession df (Some (now inp)) (rt_monitoring ss0)
            | None => ss0
            end
          else ss0
      | _ => ss0
      end
    else ss0.
Proof.
  unfold real_time_tab.
  destruct (reset_clicked inp && nonempty (log_file_path inp));
    (destruct (monitoring_enabled inp && nonempty (log_file_path inp)); [|reflexivity];
     destruct (log_file inp) as [|msg|data]; try reflexivity; simpl;
     destruct (strip_nonempty data) eqn:Hs; [|reflexivity];
     rewrite (strip_nonempty_nonempty data Hs);
     match goal with
     | |- context [process_incremental_data data ?e] =>
         destruct (process_incremental_data data e) as [[df|] errs]
     end; reflexivity).
Qed.



(** X8: whenever a run of the tab reads text that is not blank, the
    last-update time of the session becomes the time of the run, also
    when the extraction failed or nothing new was merged; when the
    file is missing, unreadable or blank and reset was not clicked,
    the time stays what it was. *)
Theorem real_time_tab_last_update (inp : tab_inputs) (ss : session_state) :
  monitoring_enabled inp = true -> nonempty (log_file_path inp) = true ->
  (forall data, log_file inp = Content data -> strip_nonempty data = true ->
     rt_last_update (fst (real_time_tab inp ss)) = Some (now inp)) /\
  (reset_clicked inp = false ->
   (forall data, log_file inp = Content data -> strip_nonempty data = false) ->
   fst (real_time_tab inp ss) = ss).
Proof.
  intros Hmon Hpath. rewrite real_time_tab_session, Hmon, Hpath, andb_true_r. simpl. split.
  - intros data -> ->.
    match goal with
    | |- context [process_incremental_data data (Some ?e)] =>
        destruct (process_incremental_data_some data e) as [d' ->]
    end. reflexivity.
  - intros -> Hblank. destruct (log_file inp) as [|msg|data]; try reflexivity.
    rewrite (Hblank data eq_refl). reflexivity.
Qed.

(** X9: a run in which reset is clicked on a tab with a path forgets
    what the session held: the dataset and the last-update time after
    the run are the same whatever they were before, and the dataset is
    the empty one when monitoring is off. *)
Theorem real_time_tab_reset_forgets (inp : tab_inputs) (ss1 ss2 : session_state) :
  reset_clicked inp = true -> nonempty (log_file_path inp) = true ->
  rt_data (fst (real_time_tab inp ss1)) = rt_data (fst (real_time_tab inp ss2)) /\
  rt_last_update (fst (real_time_tab inp ss1)) = rt_last_update (fst (real_time_tab inp ss2)) /\
  (monitoring_enabled inp = false ->
   rt_data (fst (real_time_tab inp ss1)) = DataFrame_new /\
   rt_last_update (fst (real_time_tab inp ss1)) = None).
Proof.
  intros Hreset Hpath. rewrite !real_time_tab_session, Hreset, Hpath. simpl.
  destruct (monitoring_enabled inp); simpl.
  - destruct (log_file inp) as [|msg|data]; try (repeat split; (reflexivity || discriminate)).
    destruct (strip_nonempty data); [|repeat split; (reflexivity || discriminate)].
    destruct (fst (process_incremental_data data (Some DataFrame_new)));
      repeat split; (reflexivity || discriminate).
  - repeat split; reflexivity.
Qed.

(** X10: without a reset, a run of the tab never removes or reorders
    the records of a session whose dataset is not empty: they are the
    first records of the dataset after the run. *)
Theorem real_time_tab_keeps_records (inp : tab_inputs) (ss : session_state) :
  reset_clicked inp = false -> empty (rt_data ss) = false ->
  exists kept,
    rows (rt_data (fst (real_time_tab inp ss))) = rows (rt_data ss) ++ kept.
Proof.
  intros Hreset He. rewrite real_time_tab_session, Hreset. simpl.
  assert (Hsame : exists kept, rows (rt_data ss) = rows (rt_data ss) ++ kept)
    by (exists []; rewrite app_nil_r; reflexivity).
  destruct (monitoring_enabled inp && nonempty (log_file_path inp)); [|exact Hsame].
  destruct (log_file inp) as [|msg|data]; try exact Hsame.
  destruct (strip_nonempty data); [|exact Hsame].
  destruct (fst (process_incremental_data data (Some (rt_data ss)))) as [df|] eqn:H1;
    [|exact Hsame].
  destruct (process_incremental_data_grows data (rt_data ss) df H1 He) as (cols & kept & _ & Hr).
  exists kept. exact Hr.
Qed.

(** ** More on the upload loop *)

Lemma process_file_tagged file_content filename d :
  fst (process_file file_content filename) = Some d ->
  forall r, In r (rows d) -> source_file r = Some filename.
Proof.
  rewrite process_file_extract. destruct (extract file_content) as [df|]; [|discriminate].
  intros [= <-] r Hin. unfold set_source_file in Hin; simpl in Hin.
  apply in_map_iff in Hin as (r0 & <- & _). reflexivity.
Qed.

Lemma upload_loop_from files :
  forall processed_data name d,
    fst (upload_loop files processed_data) !! name = Some d ->
    processed_data !! name = Some d \/
    (processed_data !! name = None /\
     exists file_content,
       In (name, file_content) files /\
       fst (process_file file_content name) = Some d /\ empty d = false).
Proof.
  induction files as [|[name' content'] files IH]; intros processed_data name d;
    [left; assumption|].
  simpl. destruct (processed_data !! name') as [d'|] eqn:Hname'.
  - intros H. apply IH in H as [H|(Hn & c & Hin & Hc)]; [left; exact H|].
    right. split; [exact Hn|]. exists c. split; [right; exact Hin|exact Hc].
  - destruct (process_file content' name') as [df errs] eqn:Hpf.
    match goal with
    | |- context [upload_loop files ?pd] =>
        specialize (IH pd name d); destruct (upload_loop files pd) as [final errs']
    end.
    simpl in *. intros H. apply IH in H as [H|(Hn & c & Hin & Hc)].
    + destruct df as [d0|]; [|left; exact H].
      destruct (empty d0) eqn:He0; simpl in H; [left; exact H|].
      destruct (decide (name' = name)) as [->|Hne].
      * rewrite lookup_insert_eq in H. injection H as <-.
        right. split; [exact Hname'|]. exists content'.
        split; [left; reflexivity|]. rewrite Hpf. split; [reflexivity|exact He0].
      * rewrite lookup_insert_ne in H by exact Hne. left. exact H.
    + right. split.
      * destruct df as [d0|]; [|exact Hn].
        destruct (negb (empty d0)); [|exact Hn].
        destruct (decide (name' = name)) as [->|Hne];
          [rewrite lookup_insert_eq in Hn; discriminate|].
        rewrite lookup_insert_ne in Hn by exact Hne. exact Hn.
      * exists c. split; [right; exact Hin|exact Hc].
Qed.

(** X11: the upload loop never changes or removes what was stored, and
    whatever else it stores under a name is the frame of an uploaded
    file of that name, not empty, every record tagged with the name. *)
Theorem upload_loop_stores_only_ingested
  (files : list (string * string)) (processed_data : gmap string DataFrame)
  (name : string) :
  (forall d, processed_data !! name = Some d ->
     fst (upload_loop files processed_data) !! name = Some d) /\
  (forall d, processed_data !! name = None ->
     fst (upload_loop files processed_data) !! name = Some d ->
     exists file_content,
       In (name, file_content) files /\
       fst (process_file file_content name) = Some d /\ empty d = false /\
       forall r, In r (rows d) -> source_file r = Some name).
Proof.
  split; [intros d; apply upload_loop_keeps|].
  intros d Hnone H. apply upload_loop_from in H as [H|(_ & c & Hin & Hpf & He)];
    [congruence|].
  exists c. repeat split; try assumption.
  apply (process_file_tagged c name d Hpf).
Qed.




(** ** Polling a growing log *)

Lemma real_time_tab_data inp ss data :
  monitoring_enabled inp = true -> nonempty (log_file_path inp) = true ->
  reset_clicked inp = false -> log_file inp = Content data ->
  rt_data (fst (real_time_tab inp ss)) = stream_step (rt_data ss) data.
Proof.
  intros Hmon Hpath Hreset Hfile.
  rewrite real_time_tab_session, Hmon, Hpath, Hreset, Hfile. simpl.
  unfold stream_step. destruct (strip_nonempty data); [|reflexivity].
  destruct (fst (process_incremental_data data (Some (rt_data ss)))); reflexivity.
Qed.

Lemma stream_step_holds_ids d prev data n more :
  holds_ids d prev ->
  strip_nonempty data = true -> extract data = Some n ->
  has_column "id" n = true -> (forall r, In r (rows n) -> id r <> None) ->
  Sorted Z.le (ids n) -> ids n = prev ++ more ->
  holds_ids (stream_step d data) (ids n).
Proof.
  intros Hinv Hs Hx Hcol Hids Hsorted Hgrow.
  unfold stream_step. rewrite Hs, process_incremental_data_extract, Hx.
  destruct Hinv as [[Hd ->]|(Hcd & Hne & Hiff)].
  - rewrite (merge_empty d n (rows_nil_empty d Hd)). unfold holds_ids, ids.
    destruct (rows n) as [|r rs] eqn:Hrows.
    + left. split; reflexivity.
    + right. split; [exact Hcol|]. split; [|tauto].
      rewrite row_ids_cons.
      assert (Hr : id r <> None) by (apply Hids; try rewrite Hrows; left; reflexivity).
      destruct (id r); [discriminate|congruence].
  - assert (He : empty d = false).
    { apply empty_false_iff. split; [eapply has_column_columns; exact Hcd|].
      apply row_ids_nonempty_rows. exact Hne. }
    destruct (max_id_of_is_max d Hcd Hne) as (m & Hm & Hin & Hle).
    assert (Hd' : exists d', merge (Some d) n = Ret d' /\ has_column "id" d' = true /\
                             rows d' = rows d ++ List.filter (id_above m) (rows n)).
    { rewrite (merge_nonempty d n He Hcol), Hm, filter_gt_entry.
      destruct (List.filter (id_above m) (rows n)) as [|k ks].
      - exists d. rewrite app_nil_r. auto.
      - eexists. split; [reflexivity|].
        split; [apply has_column_concat; exact Hcd|reflexivity]. }
    destruct Hd' as (d' & -> & Hcd' & Hrows').
    assert (Hss : StronglySorted Z.le (prev ++ more)).
    { rewrite <- Hgrow. apply Sorted.Sorted_StronglySorted; [|exact Hsorted].
      intros x y z. apply Z.le_trans. }
    right. split; [exact Hcd'|]. unfold ids in *. rewrite Hrows', row_ids_app. split.
    + intros H. apply app_eq_nil in H as [H _]. contradiction.
    + intros i. rewrite in_app_iff, in_row_ids_filter. split.
      * intros [H|[H _]]; [|exact H]. rewrite Hgrow. apply in_app_iff. left.
        apply Hiff. exact H.
      * intros H. pose proof H as H'. rewrite Hgrow in H'.
        apply in_app_iff in H' as [H'|H']; [left; apply Hiff; exact H'|].
        assert (m <= i).
        { apply StronglySorted_app in Hss as (Hxy & _ & _).
          apply Hxy; apply list_elem_of_In; [apply Hiff; exact Hin|exact H']. }
        destruct (Z.eq_dec i m) as [->|Hneq]; [left; exact Hin|].
        right. split; [exact H|lia].
Qed.

Lemma run_tab_holds_ids prev inps final :
  polls_growing prev inps final ->
  forall ss, holds_ids (rt_data ss) prev -> holds_ids (rt_data (run_tab inps ss)) final.
Proof.
  induction 1 as [prev|prev inp rest data n more final
                  Hmon Hpath Hreset Hfile Hs Hx Hcol Hids Hsorted Hgrow Hrest IH];
    intros ss Hinv; [exact Hinv|].
  unfold run_tab. simpl. apply IH.
  rewrite (real_time_tab_data inp ss data Hmon Hpath Hreset Hfile).
  eapply stream_step_holds_ids; eassumption.
Qed.

(** X19: when a new session polls a growing log run after run (each
    run reading the whole file again), and each content is extracted
    to records with ids in non-decreasing order that start with the
    ids extracted the run before, the dataset of the session after the
    runs holds exactly the set of ids extracted at the last run. *)
Theorem run_tab_growing_log (inps : list tab_inputs) (final : list Z) :
  polls_growing [] inps final ->
  forall i, In i (ids (rt_data (run_tab inps session_init))) <-> In i final.
Proof.
  intros Hpolls.
  destruct (run_tab_holds_ids [] inps final Hpolls session_init) as [[Hd ->]|(_ & _ & H)].
  - left. split; reflexivity.
  - unfold ids. rewrite Hd. reflexivity.
  - exact H.
Qed.


(** ** Further invariants of the two paths *)

(** X20: a dataset that is not empty and whose id column holds no id
    (every entry is NaN) never changes again: its maximum is NaN, every
    comparison with it is false, and the step returns the dataset for
    any text. *)
Theorem process_incremental_data_frozen (text : string) (e : DataFrame) :
  empty e = false -> has_column "id" e = true -> ids e = [] ->
  fst (process_incremental_data text (Some e)) = Some e.
Proof.
  intros He Hc Hids. rewrite process_incremental_data_extract.
  destruct (extract text) as [n|]; [|reflexivity].
  unfold merge, select_id_gt. rewrite He. simpl.
  destruct (has_column "id" n) eqn:Hcn; [|reflexivity].
  rewrite (max_id_of_with_column e Hc).
  pose proof (series_max_spec (map id (rows e))) as Hs.
  destruct (series_max (map id (rows e))) as [m|].
  - destruct Hs as [Hin _]. unfold ids, row_ids in Hids. rewrite Hids in Hin. destruct Hin.
  - rewrite filter_gt_entry_nan.
    rewrite empty_select_rows by (eapply has_column_columns; exact Hcn). reflexivity.
Qed.

Lemma stream_step_rows d c r :
  In r (rows (stream_step d c)) -> In r (rows d) \/ In r (chunk_rows c).
Proof.
  unfold stream_step, chunk_rows. destruct (strip_nonempty c); [|left; assumption].
  rewrite process_incremental_data_extract.
  destruct (extract c) as [n|]; [|left; assumption].
  unfold merge, select_id_gt. destruct (empty d); simpl; [right; assumption|].
  destruct (has_column "id" n); [|left; assumption].
  destruct (negb (empty _)); [|left; assumption].
  simpl. intros H. apply in_app_iff in H as [H|H]; [left; exact H|].
  right. apply filter_In in H as [H _]. exact H.
Qed.

(** X21: every record the streaming path holds after a sequence of
    chunks is a record extracted from one of the chunks, as extracted:
    the path adds nothing of its own and alters no record. *)
Theorem stream_rows_from_chunks (chunks : list string) (r : Row) :
  In r (rows (stream chunks)) ->
  exists c, In c chunks /\ In r (chunk_rows c).
Proof.
  unfold stream.
  assert (H : forall d, In r (rows (fold_left stream_step chunks d)) ->
                        In r (rows d) \/ exists c, In c chunks /\ In r (chunk_rows c)).
  { induction chunks as [|c chunks IH]; intros d Hin; [left; exact Hin|].
    simpl in Hin. apply IH in Hin as [Hin|(c' & Hc' & Hin)].
    - apply stream_step_rows in Hin as [Hin|Hin]; [left; exact Hin|].
      right. exists c. split; [left; reflexivity|exact Hin].
    - right. exists c'. split; [right; exact Hc'|exact Hin]. }
  intros Hin. apply H in Hin as [[]|Hin]. exact Hin.
Qed.




End Core.

(** ** The theorems at concrete inputs, with the engine of the spec *)

Lemma merge_already_seen_witness :
  fst (process_incremental_data spec_run_perl spec_read_csv
         (sample_block "2") (Some frame_ids_1_2))
  = Some frame_ids_1_2.
Proof.
  apply (merge_already_seen spec_run_perl spec_read_csv
           frame_ids_1_2 frame_id_2 2 (sample_block "2")).
  - reflexivity.
  - right. left. reflexivity.
  - intros i [<-|[<-|[]]]; lia.
  - intros i [<-|[]]. lia.
  - vm_compute. reflexivity.
Defined.

Lemma process_incremental_data_keeps_on_failure_witness :
  fst (process_incremental_data (engine_with_timeout log_ids_1_2) spec_read_csv
         log_ids_1_2 (Some frame_id_2))
  = Some frame_id_2.
Proof.
  apply (process_incremental_data_keeps_on_failure
           (engine_with_timeout log_ids_1_2) spec_read_csv log_ids_1_2 (Some frame_id_2)).
  eapply fail_timeout. vm_compute. reflexivity.
Defined.

(** The batch of the spec: one upload on which the engine times out,
    and a sibling that is ingested all the same. *)
Lemma process_file_tags_or_reports_witness :
  fst (upload_loop (engine_with_timeout "slow") spec_read_csv
         [("slow.log", "slow"); ("ue_dl_rtt_b20.log", log_ids_1_2)] ∅)
    !! "ue_dl_rtt_b20.log"
  = Some (set_source_file "ue_dl_rtt_b20.log" frame_ids_1_2).
Proof.
  destruct (process_file_tags_or_reports (engine_with_timeout "slow") spec_read_csv
              log_ids_1_2 "ue_dl_rtt_b20.log") as (_ & _ & _ & H).
  apply (H [("slow.log", "slow")] [] ∅).
  - simpl. intros [E|[]]. discriminate E.
  - reflexivity.
  - vm_compute. reflexivity.
  - reflexivity.
Defined.

Lemma stream_matches_batch_witness :
  same_id_set (stream spec_run_perl spec_read_csv chunks_ids_1_2)
              (set_source_file "ue_dl_rtt_b20.log" frame_ids_1_2).
Proof.
  apply (stream_matches_batch spec_run_perl spec_read_csv
           chunks_ids_1_2 log_ids_1_2 "ue_dl_rtt_b20.log" frame_ids_1_2).
  - vm_compute. reflexivity.
  - vm_compute. reflexivity.
  - intros c n [<-|[<-|[]]] H; vm_compute in H; injection H as <-; reflexivity.
  - intros r [<-|[<-|[]]]; discriminate.
  - vm_compute. repeat constructor. discriminate.
Defined.

(** C1 (as stated) fails: the log whose only block has id 12, delivered
    as the chunk "1" followed by the rest, leaves the streaming path
    with the id 2, while the batch path has the id 12. *)
Lemma stream_loses_split_id :
  String.concat "" chunks_id_12 = log_id_12 /\
  exists batch,
    fst (process_file spec_run_perl spec_read_csv log_id_12 "ue_dl_rtt_b20.log")
      = Some batch /\
    ids batch = [12] /\
    ids (stream spec_run_perl spec_read_csv chunks_id_12) = [2] /\
    ~ same_id_set (stream spec_run_perl spec_read_csv chunks_id_12) batch.
Proof.
  split; [vm_compute; reflexivity|].
  eexists. split; [vm_compute; reflexivity|].
  split; [vm_compute; reflexivity|].
  assert (Hs : ids (stream spec_run_perl spec_read_csv chunks_id_12) = [2])
    by (vm_compute; reflexivity).
  split; [exact Hs|].
  intros H. specialize (H 12). rewrite Hs in H. destruct H as [_ H].
  destruct H as [H|[]]; [left; reflexivity|discriminate H].
Qed.

(** The same happens between blocks when the ids of the log are not
    in order: the second chunk is dropped as already seen. *)
Example stream_loses_out_of_order_id :
  ids (stream spec_run_perl spec_read_csv [sample_block "2"; sample_block "1"]) = [2] /\
  ids (spec_frame (sample_block "2" +:+ sample_block "1")) = [2; 1].
Proof. split; vm_compute; reflexivity. Qed.

(** The sample entry of the file format gives one record. *)
Example spec_frame_sample_entry :
  ids (spec_frame (sample_block "1")) = [1] /\
  map latency (rows (spec_frame (sample_block "1"))) = [Some 1748351985647759] /\
  map (fun r => field_value "UEThpDl" (metrics r)) (rows (spec_frame (sample_block "1")))
    = ["1364419.02"].
Proof. repeat split; vm_compute; reflexivity. Qed.

Lemma real_time_tab_rereads_file_witness :
  ids (rt_data (fst (real_time_tab spec_run_perl spec_read_csv
                       (mkInputs "realtime.log" true false (Content log_ids_1_2) 0)
                       (mkSession frame_ids_1_2 None false))))
  = ids (stream_step spec_run_perl spec_read_csv frame_ids_1_2 log_ids_1_2).
Proof.
  destruct (real_time_tab_rereads_file spec_run_perl spec_read_csv
              (mkInputs "realtime.log" true false (Content log_ids_1_2) 0)
              (mkSession frame_ids_1_2 None false) log_ids_1_2)
    as (_ & _ & H & _); [reflexivity | reflexivity | reflexivity |].
  rewrite H. reflexivity.
Defined.

(** ** More on the cursor tracker *)

Lemma length_append (a b : string) :
  String.length (a +:+ b) = (String.length a + String.length b)%nat.
Proof.
  induction a as [|c a IH]; [reflexivity|].
  change (S (String.length (a +:+ b)) = S (String.length a + String.length b)).
  rewrite IH. reflexivity.
Qed.


Lemma read_from_past_end data :
  forall pos, (String.length data <= pos)%nat -> read_from pos data = "".
Proof.
  induction data as [|c data IH]; intros pos Hpos; [destruct pos; reflexivity|].
  destruct pos as [|pos]; [simpl in Hpos; lia|].
  simpl. apply IH. simpl in Hpos. lia.
Qed.




(** X14: when the file is not longer than the cursor (it was truncated
    or replaced by a shorter one), a read returns no new data and
    leaves the tracker as it was, so nothing is delivered until the
    file grows past the old cursor. *)
Theorem read_new_data_truncated
  (self : RealTimeMetricsProcessor) (data path : string) :
  (String.length data <= last_position self)%nat ->
  read_new_data self (Content data) path = (self, (None, [])).
Proof.
  intros Hlen. unfold read_new_data, tell_after_read.
  rewrite (read_from_past_end data _ Hlen). simpl.
  replace (Nat.max (last_position self) (String.length data))
    with (last_position self) by lia.
  destruct self; reflexivity.
Qed.

Lemma read_new_data_truncated_witness :
  read_new_data (mkRT "scripts/script.pl" 5 false) (Content "abc") "realtime.log"
  = (mkRT "scripts/script.pl" 5 false, (None, [])).
Proof.
  apply (read_new_data_truncated (mkRT "scripts/script.pl" 5 false) "abc" "realtime.log").
  simpl. lia.
Defined.


(** ** The window of the live dashboard *)

Lemma skipn_last {A} (l : list A) (d : A) :
  forall k, (k < length l)%nat -> List.last (skipn k l) d = List.last l d.
Proof.
  induction l as [|x l IH]; intros k Hk; [simpl in Hk; lia|].
  destruct k as [|k]; [reflexivity|]. simpl in Hk. simpl skipn.
  rewrite IH by lia. destruct l; [simpl in Hk; lia|reflexivity].
Qed.

(** X16: the plotted frame holds the last 50 records of the dataset,
    in order, all of them when there are at most 50; it always ends
    with the newest record, and the raw-data table shows the last 10
    of the plotted records. *)
Theorem display_df_window (df : DataFrame) :
  rows (display_df df) = skipn (length (rows df) - 50) (rows df) /\
  length (rows (display_df df)) = Nat.min 50 (length (rows df)) /\
  (forall d, rows df <> [] ->
     List.last (rows (display_df df)) d = List.last (rows df) d) /\
  rows (recent_data df) = rows (recent_data (display_df df)).
Proof.
  assert (Hrows : rows (display_df df) = skipn (length (rows df) - 50) (rows df)).
  { unfold display_df. destruct (Nat.ltb_spec 50 (length (rows df))); [reflexivity|].
    replace (length (rows df) - 50)%nat with O by lia. reflexivity. }
  split; [exact Hrows|]. split; [rewrite Hrows, length_skipn; lia|]. split.
  - intros d Hne. rewrite Hrows. apply skipn_last.
    destruct (rows df); [congruence|simpl; lia].
  - unfold recent_data, tail. simpl. rewrite Hrows, length_skipn, skipn_skipn.
    f_equal. lia.
Qed.

(** ** The description of a file name *)

Lemma string_forall_append p a b :
  string_forall p (a +:+ b) = string_forall p a && string_forall p b.
Proof.
  induction a as [|c a IH]; [reflexivity|].
  change (p c && string_forall p (a +:+ b) = p c && string_forall p a && string_forall p b).
  rewrite IH, andb_assoc. reflexivity.
Qed.

Lemma string_forall_impl (p q : ascii -> bool) s :
  (forall c, p c = true -> q c = true) ->
  string_forall p s = true -> string_forall q s = true.
Proof.
  intros Hpq. induction s as [|c s IH]; [reflexivity|]. simpl.
  intros H. apply andb_true_iff in H as [Hc Hs]. rewrite (Hpq c Hc), (IH Hs). reflexivity.
Qed.

Lemma split_on_nonempty sep s : split_on sep s <> [].
Proof.
  destruct s as [|c s]; simpl; [discriminate|].
  destruct (Ascii.eqb c sep); [discriminate|]. destruct (split_on sep s); discriminate.
Qed.

Lemma split_on_without sep s :
  string_forall (fun c => negb (Ascii.eqb c sep)) s = true -> split_on sep s = [s].
Proof.
  induction s as [|c s IH]; [reflexivity|]. simpl.
  intros H. apply andb_true_iff in H as [Hc Hs]. apply negb_true_iff in Hc.
  rewrite Hc, (IH Hs). reflexivity.
Qed.

Lemma split_on_append sep a b :
  split_on sep (a +:+ String sep b) = split_on sep a ++ split_on sep b.
Proof.
  induction a as [|c a IH].
  - change (split_on sep (String sep b) = [""] ++ split_on sep b). simpl.
    rewrite Ascii.eqb_refl. reflexivity.
  - change (split_on sep (String c (a +:+ String sep b))
            = split_on sep (String c a) ++ split_on sep b).
    simpl. destruct (Ascii.eqb c sep); [rewrite IH; reflexivity|].
    rewrite IH. pose proof (split_on_nonempty sep a) as Hne.
    destruct (split_on sep a); [congruence|reflexivity].
Qed.

Lemma is_plain_no_slash s :
  string_forall is_plain s = true ->
  string_forall (fun c => negb (Ascii.eqb c "/")) s = true.
Proof.
  apply string_forall_impl. intros c H. unfold is_plain in H.
  apply andb_true_iff in H as [H _]. exact H.
Qed.

Lemma is_plain_no_dot s :
  string_forall is_plain s = true ->
  string_forall (fun c => negb (Ascii.eqb c ".")) s = true.
Proof.
  apply string_forall_impl. intros c H. unfold is_plain in H.
  apply andb_true_iff in H as [_ H]. exact H.
Qed.

Lemma rfind_without c s :
  string_forall (fun a => negb (Ascii.eqb a c)) s = true -> rfind c s = None.
Proof.
  induction s as [|a s IH]; [reflexivity|]. simpl.
  intros H. apply andb_true_iff in H as [Ha Hs]. apply negb_true_iff in Ha.
  rewrite (IH Hs), Ha. reflexivity.
Qed.

Lemma rfind_append c a b :
  rfind c b = None -> rfind c (a +:+ String c b) = Some (String.length a).
Proof.
  intros Hb. induction a as [|x a IH].
  - change (rfind c (String c b) = Some O). simpl. rewrite Hb, Ascii.eqb_refl. reflexivity.
  - change (rfind c (String x (a +:+ String c b)) = Some (S (String.length a))).
    simpl. rewrite IH. reflexivity.
Qed.

Lemma substring_append a b : substring 0 (String.length a) (a +:+ b) = a.
Proof.
  induction a as [|c a IH]; [destruct b; reflexivity|].
  change (String c (substring 0 (String.length a) (a +:+ b)) = String c a).
  rewrite IH. reflexivity.
Qed.

Lemma stem_without_dot s : string_forall is_plain s = true -> stem s = s.
Proof.
  intros H. unfold stem. rewrite (rfind_without "." s (is_plain_no_dot s H)). reflexivity.
Qed.

Lemma stem_with_suffix base ext :
  nonempty base = true -> nonempty ext = true -> string_forall is_plain ext = true ->
  stem (base +:+ String "." ext) = base.
Proof.
  intros Hb He Hp. unfold stem.
  rewrite (rfind_append "." base ext (rfind_without "." ext (is_plain_no_dot ext Hp))).
  rewrite length_append. simpl String.length.
  destruct base as [|c base]; [discriminate|]. destruct ext as [|e ext]; [discriminate|].
  replace ((0 <? String.length (String c base))
           && (String.length (String c base)
               <? String.length (String c base) + S (String.length (String e ext)) - 1))%nat
    with true.
  - apply substring_append.
  - symmetry. apply andb_true_iff. split; apply Nat.ltb_lt; simpl; lia.
Qed.

Lemma path_name_plain s :
  nonempty s = true -> string_forall is_plain s = true -> path_name s = s.
Proof.
  intros Hn Hp. unfold path_name.
  rewrite (split_on_without "/" s (is_plain_no_slash s Hp)). simpl. rewrite Hn. simpl.
  destruct s as [|c s]; [discriminate|]. simpl in Hp.
  apply andb_true_iff in Hp as [Hc _]. unfold is_plain in Hc.
  apply andb_true_iff in Hc as [_ Hc]. apply negb_true_iff in Hc.
  simpl. rewrite Hc. reflexivity.
Qed.

Lemma path_name_in_directory dir s :
  nonempty s = true -> String.eqb s "." = false ->
  string_forall (fun c => negb (Ascii.eqb c "/")) s = true ->
  path_name (dir +:+ String "/" s) = s.
Proof.
  intros Hn Hdot Hp. unfold path_name.
  rewrite split_on_append, List.filter_app, (split_on_without "/" s Hp). simpl.
  rewrite Hn, Hdot. simpl. apply last_last.
Qed.

Lemma with_suffix_not_dot base ext :
  nonempty base = true -> String.eqb (base +:+ String "." ext) "." = false.
Proof.
  destruct base as [|c base]; [discriminate|]. intros _.
  change (String.eqb (String c (base +:+ String "." ext)) (String "." "") = false).
  simpl. destruct (Ascii.eqb c "."); [|reflexivity].
  destruct base; reflexivity.
Qed.

(** X17: a file name that is described (not answered with the
    fallback) is described the same whatever directory it is given
    in and whatever extension it carries. *)
Theorem parse_filename_description_ignores_location
  (dir base ext : string) :
  nonempty base = true -> string_forall is_plain base = true ->
  nonempty ext = true -> string_forall is_plain ext = true ->
  parse_filename_description base <> "File: " +:+ base ->
  parse_filename_description (dir +:+ String "/" (base +:+ String "." ext))
  = parse_filename_description base.
Proof.
  intros Hb Hpb He Hpe Hdesc. unfold parse_filename_description in *.
  rewrite path_name_in_directory;
    [|destruct base; [discriminate|reflexivity]
     |apply with_suffix_not_dot; exact Hb
     |rewrite string_forall_append; simpl;
      rewrite (is_plain_no_slash base Hpb), (is_plain_no_slash ext Hpe); reflexivity].
  rewrite (stem_with_suffix base ext Hb He Hpe).
  rewrite (path_name_plain base Hb Hpb), (stem_without_dot base Hpb) in *.
  destruct (filename_groups (lower base)) as [[[[ue dr] tt] bw]|]; [|congruence].
  destruct (4300 <? String.length ue)%nat; [congruence|reflexivity].
Qed.

Lemma take_digits_all d : string_forall is_digit d = true -> take_digits d = (d, "").
Proof.
  induction d as [|c d IH]; [reflexivity|]. simpl.
  intros H. apply andb_true_iff in H as [Hc Hd]. rewrite Hc, (IH Hd). reflexivity.
Qed.

Lemma take_digits_append d c r :
  string_forall is_digit d = true -> is_digit c = false ->
  take_digits (d +:+ String c r) = (d, String c r).
Proof.
  intros Hd Hc. induction d as [|x d IH].
  - change (take_digits (String c r) = ("", String c r)). simpl. rewrite Hc. reflexivity.
  - change (take_digits (String x (d +:+ String c r)) = (String x d, String c r)).
    simpl in Hd. apply andb_true_iff in Hd as [Hx Hd].
    simpl. rewrite Hx, (IH Hd). reflexivity.
Qed.

Lemma take_letters_append d c r :
  string_forall is_lower_letter d = true -> is_lower_letter c = false ->
  take_letters (d +:+ String c r) = (d, String c r).
Proof.
  intros Hd Hc. induction d as [|x d IH].
  - change (take_letters (String c r) = ("", String c r)). simpl. rewrite Hc. reflexivity.
  - change (take_letters (String x (d +:+ String c r)) = (String x d, String c r)).
    simpl in Hd. apply andb_true_iff in Hd as [Hx Hd].
    simpl. rewrite Hx, (IH Hd). reflexivity.
Qed.

Lemma string_map_append f a b :
  string_map f (a +:+ b) = string_map f a +:+ string_map f b.
Proof.
  induction a as [|c a IH]; [reflexivity|].
  change (String (f c) (string_map f (a +:+ b)) = String (f c) (string_map f a +:+ string_map f b)).
  rewrite IH. reflexivity.
Qed.

Lemma string_map_fixed f p s :
  (forall c, p c = true -> f c = c) -> string_forall p s = true -> string_map f s = s.
Proof.
  intros Hf. induction s as [|c s IH]; [reflexivity|]. simpl.
  intros H. apply andb_true_iff in H as [Hc Hs]. rewrite (Hf c Hc), (IH Hs). reflexivity.
Qed.

Lemma to_lower_digit c : is_digit c = true -> to_lower c = c.
Proof.
  unfold is_digit, to_lower. intros H. apply andb_true_iff in H as [_ H].
  apply Nat.leb_le in H.
  destruct (Nat.leb_spec 65 (nat_of_ascii c)); [lia|reflexivity].
Qed.

Lemma to_lower_letter c : is_lower_letter c = true -> to_lower c = c.
Proof.
  unfold is_lower_letter, to_lower. intros H. apply andb_true_iff in H as [H _].
  apply Nat.leb_le in H.
  destruct (Nat.leb_spec (nat_of_ascii c) 90); [lia|].
  rewrite andb_false_r. reflexivity.
Qed.

Lemma is_digit_plain c : is_digit c = true -> is_plain c = true.
Proof.
  intros H. unfold is_plain.
  destruct (Ascii.eqb_spec c "/") as [->|_]; [discriminate|].
  destruct (Ascii.eqb_spec c ".") as [->|_]; [discriminate|reflexivity].
Qed.

Lemma is_lower_letter_plain c : is_lower_letter c = true -> is_plain c = true.
Proof.
  intros H. unfold is_plain.
  destruct (Ascii.eqb_spec c "/") as [->|_]; [discriminate|].
  destruct (Ascii.eqb_spec c ".") as [->|_]; [discriminate|reflexivity].
Qed.

Section Convention.

Variables (c1 d1 d2 : ascii) (ue tt bw : string).
Hypothesis Hc1 : c1 = "p"%char \/ c1 = "e"%char.
Hypothesis Hd1 : d1 = "d"%char \/ d1 = "u"%char.
Hypothesis Hd2 : d2 = "p"%char \/ d2 = "l"%char.
Hypothesis Hue : string_forall is_digit ue = true.
Hypothesis Htt : string_forall is_lower_letter tt = true.
Hypothesis Htt1 : nonempty tt = true.
Hypothesis Hbw : string_forall is_digit bw = true.
Hypothesis Hbw1 : nonempty bw = true.

Lemma conventional_name_groups :
  filename_groups (conventional_name c1 ue d1 d2 tt bw)
  = Some (ue, String d1 (String d2 ""), tt, bw).
Proof.
  unfold conventional_name, filename_groups.
  assert (E1 : Ascii.eqb c1 "p" || Ascii.eqb c1 "e" = true)
    by (destruct Hc1 as [-> | ->]; reflexivity).
  assert (E2 : (Ascii.eqb d1 "d" || Ascii.eqb d1 "u")
               && (Ascii.eqb d2 "p" || Ascii.eqb d2 "l") = true)
    by (destruct Hd1 as [-> | ->]; destruct Hd2 as [-> | ->]; reflexivity).
  rewrite E1, (take_digits_append ue "_" _ Hue eq_refl), E2.
  rewrite (take_letters_append tt "_" _ Htt eq_refl), (take_digits_all bw Hbw).
  rewrite Htt1, Hbw1. reflexivity.
Qed.

Lemma conventional_name_lower :
  lower (conventional_name c1 ue d1 d2 tt bw) = conventional_name c1 ue d1 d2 tt bw.
Proof.
  unfold lower, conventional_name. simpl. rewrite string_map_append. simpl.
  rewrite string_map_append. simpl.
  rewrite (string_map_fixed to_lower is_digit ue to_lower_digit Hue).
  rewrite (string_map_fixed to_lower is_lower_letter tt to_lower_letter Htt).
  rewrite (string_map_fixed to_lower is_digit bw to_lower_digit Hbw).
  destruct Hc1 as [-> | ->]; destruct Hd1 as [-> | ->]; destruct Hd2 as [-> | ->];
    reflexivity.
Qed.

Lemma conventional_name_plain :
  string_forall is_plain (conventional_name c1 ue d1 d2 tt bw) = true.
Proof.
  unfold conventional_name. simpl. rewrite string_forall_append. simpl.
  rewrite string_forall_append. simpl.
  rewrite (string_forall_impl is_digit is_plain ue is_digit_plain Hue).
  rewrite (string_forall_impl is_lower_letter is_plain tt is_lower_letter_plain Htt).
  rewrite (string_forall_impl is_digit is_plain bw is_digit_plain Hbw).
  destruct Hc1 as [-> | ->]; destruct Hd1 as [-> | ->]; destruct Hd2 as [-> | ->];
    reflexivity.
Qed.

(** X18: every file name written after the convention of the
    docstring, with a number of at most 4300 digits, is described from
    its four parts: the number as the UE count (1 when it is left
    out, plural above 1), the direction, the traffic type and the
    bandwidth digits as written. *)
Theorem parse_filename_description_convention :
  (String.length ue <= 4300)%nat ->
  parse_filename_description (conventional_name c1 ue d1 d2 tt bw)
  = let ue_count := if nonempty ue then digits_value 0 ue else 1 in
    "📊 " +:+ (str ue_count +:+ " UE" +:+ (if 1 <? ue_count then "s" else ""))
      +:+ " | " +:+ direction_desc (String d1 (String d2 "")) +:+ " | "
      +:+ traffic_desc tt +:+ " | " +:+ (bw +:+ "MHz").
Proof.
  intros Hlen. unfold parse_filename_description.
  rewrite (path_name_plain (conventional_name c1 ue d1 d2 tt bw) eq_refl
             conventional_name_plain).
  rewrite (stem_without_dot _ conventional_name_plain).
  rewrite conventional_name_lower, conventional_name_groups.
  destruct (Nat.ltb_spec 4300 (String.length ue)); [lia|reflexivity].
Qed.

End Convention.

Lemma parse_filename_description_convention_witness :
  parse_filename_description "ue2_up_tcp_b30"
  = "📊 2 UEs | Uplink (UE → Server) | TCP | 30MHz".
Proof.
  apply (parse_filename_description_convention "e" "u" "p" "2" "tcp" "30");
    try reflexivity; try (left; reflexivity); try (right; reflexivity).
  vm_compute. lia.
Defined.

Lemma parse_filename_description_ignores_location_witness :
  parse_filename_description "/var/log/ue2_up_tcp_b30.log"
  = parse_filename_description "ue2_up_tcp_b30".
Proof.
  apply (parse_filename_description_ignores_location "/var/log" "ue2_up_tcp_b30" "log");
    try reflexivity.
  vm_compute. discriminate.
Defined.

(** ** The further theorems at concrete inputs *)


Lemma process_incremental_data_append_only_witness :
  exists d',
    fst (process_incremental_data spec_run_perl spec_read_csv log_ids_1_2 (Some frame_id_2))
    = Some d' /\
    exists cols kept,
      columns d' = columns frame_id_2 ++ cols /\ rows d' = rows frame_id_2 ++ kept.
Proof.
  destruct (process_incremental_data_append_only spec_run_perl spec_read_csv
              log_ids_1_2 frame_id_2) as (d' & Hd' & H).
  exists d'. split; [exact Hd'|apply H; reflexivity].
Defined.

Lemma process_incremental_data_missing_id_witness :
  process_incremental_data
    (fun _ => Completed 0 ("latency" +:+ nl +:+ "5" +:+ nl) "") spec_read_csv
    log_ids_1_2 (Some frame_id_2)
  = (Some frame_id_2, ["Error processing incremental data: 'id'"]).
Proof.
  apply (process_incremental_data_missing_id
           (fun _ => Completed 0 ("latency" +:+ nl +:+ "5" +:+ nl) "") spec_read_csv
           log_ids_1_2 frame_id_2 (mkDF ["latency"] [mkRow None (Some 5) [] None])).
  - vm_compute. reflexivity.
  - reflexivity.
  - reflexivity.
Defined.

Lemma stream_single_chunk_is_batch_witness :
  stream spec_run_perl spec_read_csv [log_ids_1_2] = frame_ids_1_2.
Proof.
  apply (stream_single_chunk_is_batch spec_run_perl spec_read_csv
           log_ids_1_2 "ue_dl_rtt_b20.log" frame_ids_1_2).
  - vm_compute. reflexivity.
  - vm_compute. reflexivity.
Defined.

Lemma merge_all_new_witness :
  merge (Some (frame_with_ids [4; 6])) (frame_with_ids [7; 8])
  = Ret (concat (frame_with_ids [4; 6]) (frame_with_ids [7; 8])).
Proof.
  apply (merge_all_new (frame_with_ids [4; 6]) (frame_with_ids [7; 8]) 6).
  - reflexivity.
  - reflexivity.
  - reflexivity.
  - discriminate.
  - intros r [<-|[<-|[]]]; reflexivity.
Defined.

Lemma real_time_tab_last_update_witness :
  rt_last_update
    (fst (real_time_tab (engine_with_timeout log_ids_1_2) spec_read_csv
            (mkInputs "realtime.log" true false (Content log_ids_1_2) 1748351985)
            (mkSession frame_id_2 None false)))
  = Some 1748351985.
Proof.
  destruct (real_time_tab_last_update (engine_with_timeout log_ids_1_2) spec_read_csv
              (mkInputs "realtime.log" true false (Content log_ids_1_2) 1748351985)
              (mkSession frame_id_2 None false)) as [H _];
    [reflexivity | reflexivity |].
  apply (H log_ids_1_2); [reflexivity|vm_compute; reflexivity].
Defined.

Lemma real_time_tab_reset_forgets_witness :
  rt_data (fst (real_time_tab spec_run_perl spec_read_csv
                  (mkInputs "realtime.log" false true Missing 0)
                  (mkSession frame_ids_1_2 (Some 5) false)))
  = DataFrame_new.
Proof.
  destruct (real_time_tab_reset_forgets spec_run_perl spec_read_csv
              (mkInputs "realtime.log" false true Missing 0)
              (mkSession frame_ids_1_2 (Some 5) false) session_init)
    as (_ & _ & H); [reflexivity | reflexivity |].
  apply H. reflexivity.
Defined.

Lemma real_time_tab_keeps_records_witness :
  exists kept,
    rows (rt_data (fst (real_time_tab spec_run_perl spec_read_csv
                          (mkInputs "realtime.log" true false (Content log_ids_1_2) 0)
                          (mkSession frame_id_2 None false))))
    = rows frame_id_2 ++ kept.
Proof.
  apply (real_time_tab_keeps_records spec_run_perl spec_read_csv
           (mkInputs "realtime.log" true false (Content log_ids_1_2) 0)
           (mkSession frame_id_2 None false)); reflexivity.
Defined.

Lemma upload_loop_stores_only_ingested_witness :
  fst (upload_loop (engine_with_timeout "slow") spec_read_csv
         [("ue_dl_rtt_b20.log", "slow")]
         {["ue_dl_rtt_b20.log" := frame_ids_1_2]})
    !! "ue_dl_rtt_b20.log"
  = Some frame_ids_1_2.
Proof.
  destruct (upload_loop_stores_only_ingested (engine_with_timeout "slow") spec_read_csv
              [("ue_dl_rtt_b20.log", "slow")]
              {["ue_dl_rtt_b20.log" := frame_ids_1_2]} "ue_dl_rtt_b20.log") as [H _].
  apply H. apply lookup_singleton_eq.
Defined.


Lemma display_df_window_witness :
  List.last (rows (display_df (frame_with_ids [4; 6; 7]))) (row_with_id 0)
  = row_with_id 7.
Proof.
  destruct (display_df_window (frame_with_ids [4; 6; 7])) as (_ & _ & H & _).
  rewrite H; [reflexivity|discriminate].
Defined.


Lemma run_tab_growing_log_witness :
  In 2 (ids (rt_data (run_tab spec_run_perl spec_read_csv
                        [mkInputs "realtime.log" true false (Content (sample_block "1")) 1;
                         mkInputs "realtime.log" true false (Content log_ids_1_2) 3]
                        session_init)))
  <-> In 2 [1; 2].
Proof.
  apply (run_tab_growing_log spec_run_perl spec_read_csv
           [mkInputs "realtime.log" true false (Content (sample_block "1")) 1;
            mkInputs "realtime.log" true false (Content log_ids_1_2) 3] [1; 2]).
  apply (polls_step spec_run_perl spec_read_csv []
           (mkInputs "realtime.log" true false (Content (sample_block "1")) 1)
           [mkInputs "realtime.log" true false (Content log_ids_1_2) 3]
           (sample_block "1") frame_id_1 [1] [1; 2]).
  - reflexivity.
  - reflexivity.
  - reflexivity.
  - reflexivity.
  - vm_compute. reflexivity.
  - vm_compute. reflexivity.
  - reflexivity.
  - intros r [<-|[]]. discriminate.
  - vm_compute. repeat constructor.
  - reflexivity.
  - apply (polls_step spec_run_perl spec_read_csv [1]
             (mkInputs "realtime.log" true false (Content log_ids_1_2) 3) []
             log_ids_1_2 frame_ids_1_2 [2] [1; 2]).
    + reflexivity.
    + reflexivity.
    + reflexivity.
    + reflexivity.
    + vm_compute. reflexivity.
    + vm_compute. reflexivity.
    + reflexivity.
    + intros r [<-|[<-|[]]]; discriminate.
    + vm_compute. repeat constructor. discriminate.
    + reflexivity.
    + apply (polls_done spec_run_perl spec_read_csv [1; 2]).
Defined.

Lemma process_incremental_data_frozen_witness :
  fst (process_incremental_data spec_run_perl spec_read_csv log_ids_1_2
         (Some (mkDF ["id"] [mkRow None None [] None])))
  = Some (mkDF ["id"] [mkRow None None [] None]).
Proof.
  apply (process_incremental_data_frozen spec_run_perl spec_read_csv log_ids_1_2
           (mkDF ["id"] [mkRow None None [] None])); reflexivity.
Defined.

Lemma stream_rows_from_chunks_witness :
  exists c,
    In c [sample_block "2"] /\
    In (List.hd (row_with_id 0) (rows frame_id_2))
       (chunk_rows spec_run_perl spec_read_csv c).
Proof.
  apply (stream_rows_from_chunks spec_run_perl spec_read_csv [sample_block "2"]
           (List.hd (row_with_id 0) (rows frame_id_2))).
  vm_compute. left. reflexivity.
Defined.

